(** * Study Helper AI: the request-to-result pipeline of [app.py]

    A shallow embedding of the pipeline logic of [src/app.py] (text
    truncation, quiz prompt building, keyword selection, memoised model
    loading, the button handlers, the session store and the download tab),
    followed by the properties the specification states about it.

    Python values are modelled as follows.
    - [str]: a list of Unicode code points ([N]); [str.split()] and
      [str.strip()] use Python's whitespace table for [str].
    - [int]: [Z]; a slice [l[:n]] is [slice_to n l], negative [n] included.
    - [float]: the Standard Library's [spec_float] at binary64.
    - exceptions: a sum [exn + A]; a handler's [try/except Exception] is a
      match on it.
    - [st.session_state]: a record with the four keys the app initialises.
    - [st.cache_resource]: an association list from loader call to the
      memoised return value and the messages recorded with it. *)

From Stdlib Require Import Ascii String.
From Stdlib Require Import List ZArith NArith PArith Lia Bool QArith.
From Stdlib Require Import Floats.SpecFloat.
From Stdlib Require DecimalString.
Import ListNotations.

Close Scope Q_scope.
Open Scope nat_scope.

(** ** Python strings *)

Module PyStr.

(** A string is the sequence of its code points. *)
Definition str := list N.

(** A string literal of the source (ASCII only). *)
Fixpoint lit (s : string) : str :=
  match s with
  | EmptyString => []
  | String a s' => N_of_ascii a :: lit s'
  end.

(** The code points for which [str.isspace] holds, which are the ones
    [str.split()] and [str.strip()] treat as whitespace:
    U+0009..U+000D, U+001C..U+0020, U+0085, U+00A0, U+1680, U+2000..U+200A,
    U+2028, U+2029, U+202F, U+205F, U+3000. *)
Definition is_space (c : N) : bool :=
  ((9 <=? c) && (c <=? 13) || (28 <=? c) && (c <=? 32)
   || (c =? 133) || (c =? 160) || (c =? 5760)
   || (8192 <=? c) && (c <=? 8202)
   || (c =? 8232) || (c =? 8233) || (c =? 8239) || (c =? 8287)
   || (c =? 12288))%N.

Definition space : N := 32.
Definition newline : N := 10.

(** [s.split()]: the maximal runs of non-whitespace code points, in order.
    [cur] holds the run being read, last code point first. *)
Fixpoint split_from (cur : str) (s : str) : list str :=
  match s with
  | [] => match cur with [] => [] | _ :: _ => [rev cur] end
  | c :: s' =>
      if is_space c
      then match cur with
           | [] => split_from [] s'
           | _ :: _ => rev cur :: split_from [] s'
           end
      else split_from (c :: cur) s'
  end.

Definition split (s : str) : list str := split_from [] s.

(** [sep.join(parts)]. *)
Fixpoint join (sep : str) (parts : list str) : str :=
  match parts with
  | [] => []
  | [p] => p
  | p :: ps => p ++ sep ++ join sep ps
  end.

(** [s.lstrip()], [s.rstrip()], [s.strip()]. *)
Fixpoint lstrip (s : str) : str :=
  match s with
  | [] => []
  | c :: s' => if is_space c then lstrip s' else s
  end.

Definition rstrip (s : str) : str := rev (lstrip (rev s)).

Definition strip (s : str) : str := rstrip (lstrip s).

(** Truthiness of a string or list: non-empty. *)
Definition truthy {A} (l : list A) : bool :=
  match l with [] => false | _ :: _ => true end.

(** [l[:n]] for a Python [int] [n]. *)
Definition slice_to {A} (n : Z) (l : list A) : list A :=
  if (0 <=? n)%Z then firstn (Z.to_nat n) l
  else firstn (length l - Z.to_nat (- n)) l.

(** [str(i)] for a non-negative [int]. *)
Definition str_of_nat (n : nat) : str :=
  lit (DecimalString.NilEmpty.string_of_uint (Nat.to_uint n)).

(** [s.encode()]: UTF-8, one to four bytes per code point. *)
Definition utf8_char (c : N) : list N :=
  (if c <? 128 then [c]
   else if c <? 2048 then [192 + c / 64; 128 + c mod 64]
   else if c <? 65536 then
     [224 + c / 4096; 128 + (c / 64) mod 64; 128 + c mod 64]
   else
     [240 + c / 262144; 128 + (c / 4096) mod 64;
      128 + (c / 64) mod 64; 128 + c mod 64])%N.

Definition encode (s : str) : list N := flat_map utf8_char s.

(** A word: a non-empty string with no whitespace in it. *)
Definition is_token (t : str) : bool :=
  truthy t && forallb (fun c => negb (is_space c)) t.

Definition blank (s : str) : bool := forallb is_space s.

(** The whitespace-delimited words of a string, stated on the string
    itself: leading whitespace, a word, and either the end of the string or
    one whitespace code point followed by the rest. *)
Inductive tokens_of : str -> list str -> Prop :=
| tokens_blank s :
    blank s = true -> tokens_of s []
| tokens_last pre t :
    blank pre = true -> is_token t = true -> tokens_of (pre ++ t) [t]
| tokens_cons pre t c rest ts :
    blank pre = true -> is_token t = true -> is_space c = true ->
    tokens_of rest ts ->
    tokens_of (pre ++ t ++ c :: rest) (t :: ts).

End PyStr.

Import PyStr.

(** ** Text Normalizer (app.py, 147-150) *)

Definition truncate_text (text : str) (max_words : Z) : str * bool :=
  let words := split text in
  (join [space] (slice_to max_words words),
   (max_words <? Z.of_nat (length words))%Z).

(** [len(text.split())]. *)
Definition word_count (text : str) : nat := length (split text).

(** ** Python floats *)

Module Float64.

Definition prec : Z := 53.
Definition emax : Z := 1024.

(** A Python [float]: zero, infinity, NaN or a finite binary64 number
    [(-1)^s * m * 2^e]. *)
Definition float := spec_float.

(** The floats that exist: mantissa and exponent in canonical form. *)
Definition valid (x : float) : bool := valid_binary prec emax x.

(** [x > y]. *)
Definition gt (x y : float) : bool := SFltb y x.

(** The literal [0.3]: the binary64 number nearest to 3/10,
    0x1.3333333333333p-2 = 5404319552844595 / 2^54. *)
Definition lit_0_3 : float := S754_finite false 5404319552844595 (-54).

(** The rational a positive mantissa and an exponent stand for. *)
Definition dyadic (m : positive) (e : Z) : Q :=
  if (0 <=? e)%Z then inject_Z (Zpos m * 2 ^ e)
  else Zpos m # Z.to_pos (2 ^ (- e)).

(** [a < b] on rationals. *)
Definition Qltb (a b : Q) : bool := negb (Qle_bool b a).

(** [x] is a number above the rational [q] (NaN is above nothing). *)
Definition above (q : Q) (x : float) : bool :=
  match x with
  | S754_nan => false
  | S754_infinity s => negb s
  | S754_zero _ => Qltb q 0
  | S754_finite false m e => Qltb q (dyadic m e)
  | S754_finite true m e => Qltb q (- dyadic m e)
  end.

End Float64.

(** ** The world outside the script *)

(** What an [except Exception as e] clause of the app can catch. *)
Inductive exn :=
| KeyError (key : str)
| Exception (msg : str).

Inductive capability :=
| Summarize | Answer | Quiz | Translate | Keywords.

Inductive task :=
| Summarization | QuestionAnswering | ZeroShotClassification | Translation.

(** A loaded [transformers.pipeline]: its task and the model it wraps. *)
Record pipeline := Pipeline { pipe_task : task; pipe_model : str }.

(** What one run of the script finds outside itself: whether a model can be
    loaded, what a loaded pipeline answers, and NLTK's sentence tokenizer.
    Each may raise. *)
Record env := Env {
  (** [from_pretrained] twice and [pipeline(task, ...)]: [None] when all
      three return. *)
  try_load : task -> str -> option exn;
  (** [summarizer(trunc, max_length=130, min_length=30,
      do_sample=False)[0]['summary_text']]. *)
  summarizer_call : pipeline -> str -> exn + str;
  (** [qa_model(question=..., context=...)]: [result['answer']] and
      [result.get('score')]. *)
  qa_call : pipeline -> str -> str -> exn + (str * option Float64.float);
  (** [translator(trunc_trans, max_length=256)[0]['translation_text']]. *)
  translator_call : pipeline -> str -> exn + str;
  (** [classifier(trunc_kw, labels)]: [result['labels']] and
      [result['scores']]. *)
  classifier_call :
    pipeline -> str -> list str -> exn + (list str * list Float64.float);
  (** [nltk.tokenize.sent_tokenize]. *)
  sent_tokenize : str -> exn + list str
}.

(** ** What the script shows *)

Inductive card :=
| SummaryCard (summary : str) (words : nat)
| AnswerCard (answer : str) (confidence : option Float64.float)
| QuizCard (questions : list str)
| TranslationCard (lang : str) (translation : str)
| KeywordsCard (keywords : list str).

(** A call of a memoised loader: the function and its arguments. *)
Inductive cached_call :=
| CallSummarizer
| CallQA
| CallClassifier
| CallTranslator (model_name : str).

(** The messages and result cards of the source, by the place that emits
    them. *)
Inductive ui_msg :=
| ErrProvideText (c : capability)          (* 508, 571, 617, 676, 727 *)
| NoteOptimized                            (* 512 *)
| ErrNeed20Words                           (* 515 *)
| ErrLoadFailed (k : cached_call) (e : exn) (* 75, 98, 121, 144 *)
| ErrCapability (c : capability) (e : exn) (* 545, 597, 649, 707, 752 *)
| WarnNoSentences                          (* 624 *)
| WarnNoQuestions                          (* 647 *)
| NoteNoKeywords                           (* 750 *)
| CacheCleared                             (* 447, 448 *)
| Result (r : card).                       (* the result cards *)

Definition is_result (m : ui_msg) : bool :=
  match m with Result _ => true | _ => false end.

(** [st.error]. *)
Definition is_error (m : ui_msg) : bool :=
  match m with
  | ErrProvideText _ | ErrNeed20Words | ErrLoadFailed _ _
  | ErrCapability _ _ => true
  | _ => false
  end.

(** ** Session state (app.py, 481-483) *)

Record session_state := Session {
  summary : str;
  quiz : list str;
  translation : str;
  keywords : list str
}.

Definition init_session : session_state :=
  {| summary := []; quiz := []; translation := []; keywords := [] |}.

(** ** The process: model cache and session *)

(** What [st.cache_resource] keeps for a call: the value the function
    returned and the messages it showed while it ran. *)
Record cached := Cached {
  cached_value : option pipeline;
  cached_shown : list ui_msg
}.

(** [loads] and [calls] record, in order, the load attempts made and the
    pipelines invoked; the script does not read them. *)
Record world := World {
  cache : list (cached_call * cached);
  loads : list cached_call;
  calls : list pipeline;
  session : session_state
}.

Definition init_world : world :=
  {| cache := []; loads := []; calls := []; session := init_session |}.

Definition str_eqb (a b : str) : bool :=
  if list_eq_dec N.eq_dec a b then true else false.

Definition cached_call_eqb (a b : cached_call) : bool :=
  match a, b with
  | CallSummarizer, CallSummarizer => true
  | CallQA, CallQA => true
  | CallClassifier, CallClassifier => true
  | CallTranslator m, CallTranslator n => str_eqb m n
  | _, _ => false
  end.

Fixpoint cache_entry (k : cached_call) (c : list (cached_call * cached))
  : option cached :=
  match c with
  | [] => None
  | (k', en) :: c' => if cached_call_eqb k k' then Some en else cache_entry k c'
  end.

(** The value stored for a call, if any. *)
Definition cache_lookup (k : cached_call) (c : list (cached_call * cached))
  : option (option pipeline) :=
  option_map cached_value (cache_entry k c).

Definition loader_task (k : cached_call) : task :=
  match k with
  | CallSummarizer => Summarization
  | CallQA => QuestionAnswering
  | CallClassifier => ZeroShotClassification
  | CallTranslator _ => Translation
  end.

Definition loader_model (k : cached_call) : str :=
  match k with
  | CallSummarizer => lit "sshleifer/distilbart-cnn-12-6"
  | CallQA => lit "distilbert-base-uncased-distilled-squad"
  | CallClassifier => lit "typeform/distilbert-base-uncased-mnli"
  | CallTranslator model_name => model_name
  end.

(** The body the four loaders share (app.py, 58-76, 81-99, 104-122,
    127-145): the pipeline, or [st.error] and [None]. *)
Definition loader_body (E : env) (k : cached_call)
  : option pipeline * list ui_msg :=
  match try_load E (loader_task k) (loader_model k) with
  | None => (Some (Pipeline (loader_task k) (loader_model k)), [])
  | Some e => (None, [ErrLoadFailed k e])
  end.

(** [@st.cache_resource], as Streamlit does it: on a miss the function
    runs, and what it returns, [None] included, is stored under the
    function and its arguments together with the [st.error] it showed; on a
    hit the function does not run, the stored value is returned and the
    stored messages are shown again. *)
Definition cache_resource (E : env) (k : cached_call) (w : world)
  : option pipeline * list ui_msg * world :=
  match cache_entry k (cache w) with
  | Some en => (cached_value en, cached_shown en, w)
  | None =>
      let (v, msgs) := loader_body E k in
      (v, msgs,
       {| cache := (k, Cached v msgs) :: cache w; loads := loads w ++ [k];
          calls := calls w; session := session w |})
  end.

Definition get_summarizer (E : env) := cache_resource E CallSummarizer.
Definition get_qa (E : env) := cache_resource E CallQA.
Definition get_classifier (E : env) := cache_resource E CallClassifier.
Definition load_translator (E : env) (model_name : str) :=
  cache_resource E (CallTranslator model_name).

(** [st.cache_resource.clear()] (app.py, 446). *)
Definition clear_cache (w : world) : world :=
  {| cache := []; loads := loads w; calls := calls w; session := session w |}.

Definition log_call (p : pipeline) (w : world) : world :=
  {| cache := cache w; loads := loads w; calls := calls w ++ [p];
     session := session w |}.

Definition set_session (s : session_state) (w : world) : world :=
  {| cache := cache w; loads := loads w; calls := calls w; session := s |}.

(** ** Tab 1: Summarize (app.py, 506-545) *)

Definition sum_btn (E : env) (text : str) (w : world) : list ui_msg * world :=
  if negb (truthy (strip text)) then ([ErrProvideText Summarize], w)
  else
    let (trunc, was_trunc) := truncate_text text 400 in
    let note := if was_trunc then [NoteOptimized] else [] in
    if length (split trunc) <? 20 then (note ++ [ErrNeed20Words], w)
    else
      let '(summarizer, shown, w1) := get_summarizer E w in
      match summarizer with
      | None => (note ++ shown, w1)
      | Some p =>
          match summarizer_call E p trunc with
          | inl e =>
              (note ++ shown ++ [ErrCapability Summarize e], log_call p w1)
          | inr s =>
              let w2 := log_call p w1 in
              (note ++ shown ++ [Result (SummaryCard s (length (split s)))],
               set_session
                 {| summary := s; quiz := quiz (session w2);
                    translation := translation (session w2);
                    keywords := keywords (session w2) |} w2)
          end
      end.

(** ** Tab 2: Q&A (app.py, 569-597) *)

Definition qa_btn (E : env) (context question : str) (w : world)
  : list ui_msg * world :=
  if negb (truthy (strip context)) || negb (truthy (strip question))
  then ([ErrProvideText Answer], w)
  else
    let (trunc_ctx, _) := truncate_text context 400 in
    let '(qa_model, shown, w1) := get_qa E w in
    match qa_model with
    | None => (shown, w1)
    | Some p =>
        match qa_call E p question trunc_ctx with
        | inl e => (shown ++ [ErrCapability Answer e], log_call p w1)
        | inr (answer, confidence) =>
            (shown ++ [Result (AnswerCard answer confidence)], log_call p w1)
        end
    end.

(** ** Tab 3: Quiz (app.py, 615-649) *)

Definition get_first_words (text : str) (max_words : Z) : str :=
  let words := split text in
  if (Z.of_nat (length words) <=? max_words)%Z then text
  else join [space] (slice_to max_words words).

Definition quiz_prompt (s : str) : str :=
  lit "What is the main concept in: '" ++ get_first_words s 12 ++ lit "'?".

(** The comprehension of line 633 over the sentences kept by line 622. *)
Definition quiz_questions (sentences : list str) : list str :=
  map quiz_prompt (filter (fun s => 10 <? length s) sentences).

Definition quiz_btn (E : env) (quiz_ctx : str) (w : world)
  : list ui_msg * world :=
  if negb (truthy (strip quiz_ctx)) then ([ErrProvideText Quiz], w)
  else
    let (trunc_quiz, _) := truncate_text quiz_ctx 200 in
    match sent_tokenize E trunc_quiz with
    | inl e => ([ErrCapability Quiz e], w)
    | inr tokenized =>
        let sentences := slice_to 5 tokenized in
        if length sentences =? 0 then ([WarnNoSentences], w)
        else
          let questions := quiz_questions sentences in
          if truthy questions
          then ([Result (QuizCard questions)],
                set_session
                  {| summary := summary (session w); quiz := questions;
                     translation := translation (session w);
                     keywords := keywords (session w) |} w)
          else ([WarnNoQuestions], w)
    end.

(** ** Tab 4: Translate (app.py, 674-707) *)

Definition model_map : list (str * str) :=
  [ (lit "French", lit "Helsinki-NLP/opus-mt-en-fr");
    (lit "German", lit "Helsinki-NLP/opus-mt-en-de");
    (lit "Spanish", lit "Helsinki-NLP/opus-mt-en-es");
    (lit "Italian", lit "Helsinki-NLP/opus-mt-en-it");
    (lit "Hindi", lit "Helsinki-NLP/opus-mt-en-hi") ].

(** [d[key]] on a dict of strings. *)
Fixpoint dict_get (d : list (str * str)) (key : str) : exn + str :=
  match d with
  | [] => inl (KeyError key)
  | (k, v) :: d' => if str_eqb key k then inr v else dict_get d' key
  end.

Definition trans_btn (E : env) (trans_text lang : str) (w : world)
  : list ui_msg * world :=
  if negb (truthy (strip trans_text)) then ([ErrProvideText Translate], w)
  else
    let (trunc_trans, _) := truncate_text trans_text 200 in
    match dict_get model_map lang with
    | inl e => ([ErrCapability Translate e], w)
    | inr model_name =>
        let '(translator, shown, w1) := load_translator E model_name w in
        match translator with
        | None => (shown, w1)
        | Some p =>
            match translator_call E p trunc_trans with
            | inl e => (shown ++ [ErrCapability Translate e], log_call p w1)
            | inr t =>
                let w2 := log_call p w1 in
                (shown ++ [Result (TranslationCard lang t)],
                 set_session
                   {| summary := summary (session w2);
                      quiz := quiz (session w2); translation := t;
                      keywords := keywords (session w2) |} w2)
            end
        end
    end.

(** ** Tab 5: Keywords (app.py, 725-752) *)

Definition labels : list str :=
  map lit ["technology"; "science"; "education"; "health"; "business";
           "finance"; "medical"; "engineering"; "mathematics";
           "history"]%string.

(** Line 736:
    [[lbl for lbl, score in zip(labels, scores) if score > 0.3][:5]]. *)
Definition select_keywords (result_labels : list str)
  (result_scores : list Float64.float) : list str :=
  slice_to 5
    (map fst
       (filter (fun p => Float64.gt (snd p) Float64.lit_0_3)
          (combine result_labels result_scores))).

Definition kw_btn (E : env) (keyword_input : str) (w : world)
  : list ui_msg * world :=
  if negb (truthy (strip keyword_input)) then ([ErrProvideText Keywords], w)
  else
    let (trunc_kw, _) := truncate_text keyword_input 200 in
    let '(classifier, shown, w1) := get_classifier E w in
    match classifier with
    | None => (shown, w1)
    | Some p =>
        match classifier_call E p trunc_kw labels with
        | inl e => (shown ++ [ErrCapability Keywords e], log_call p w1)
        | inr (result_labels, result_scores) =>
            let w2 := log_call p w1 in
            let kws := select_keywords result_labels result_scores in
            if truthy kws
            then (shown ++ [Result (KeywordsCard kws)],
                  set_session
                    {| summary := summary (session w2);
                       quiz := quiz (session w2);
                       translation := translation (session w2);
                       keywords := kws |} w2)
            else (shown ++ [NoteNoKeywords], w2)
        end
    end.

(** ** Tab 6: Download (app.py, 776-797) *)

(** [enumerate(l, start)]. *)
Fixpoint enumerate {A} (start : nat) (l : list A) : list (nat * A) :=
  match l with
  | [] => []
  | x :: l' => (start, x) :: enumerate (S start) l'
  end.

Definition quiz_text (questions : list str) : str :=
  join [newline; newline]
    (map (fun iq => lit "Question " ++ str_of_nat (fst iq) ++ lit ": " ++ snd iq)
       (enumerate 1 questions)).

Definition keywords_text (kws : list str) : str :=
  lit "Extracted Keywords:" ++ [newline; newline]
  ++ join [newline] (map (fun kw => lit "- " ++ kw) kws).

(** The bytes behind each download link ([text.encode()], which
    [download_link] wraps in base64), or [None] where the tab shows its
    "generate ... first" note instead. *)
Record downloads := Downloads {
  summary_txt : option (list N);
  quiz_txt : option (list N);
  translation_txt : option (list N);
  keywords_txt : option (list N)
}.

Definition download_tab (s : session_state) : downloads :=
  {| summary_txt :=
       if truthy (summary s) then Some (encode (summary s)) else None;
     quiz_txt :=
       if truthy (quiz s) then Some (encode (quiz_text (quiz s))) else None;
     translation_txt :=
       if truthy (translation s) then Some (encode (translation s)) else None;
     keywords_txt :=
       if truthy (keywords s) then Some (encode (keywords_text (keywords s)))
       else None |}.

(** ** Runs of the script *)

(** A button press with the widget values it reads. *)
Inductive request :=
| ReqSummarize (text : str)
| ReqAnswer (context question : str)
| ReqQuiz (quiz_ctx : str)
| ReqTranslate (trans_text lang : str)
| ReqKeywords (keyword_input : str).

Inductive action :=
| Press (r : request)
| ClearModelCache.

Definition press (E : env) (r : request) (w : world) : list ui_msg * world :=
  match r with
  | ReqSummarize text => sum_btn E text w
  | ReqAnswer context question => qa_btn E context question w
  | ReqQuiz quiz_ctx => quiz_btn E quiz_ctx w
  | ReqTranslate trans_text lang => trans_btn E trans_text lang w
  | ReqKeywords keyword_input => kw_btn E keyword_input w
  end.

Definition step (E : env) (a : action) (w : world) : list ui_msg * world :=
  match a with
  | Press r => press E r w
  | ClearModelCache => ([CacheCleared], clear_cache w)
  end.

(** Successive runs, each with the outside world it meets. *)
Fixpoint run (trace : list (env * action)) (w : world) : world :=
  match trace with
  | [] => w
  | (E, a) :: trace' => run trace' (snd (step E a w))
  end.

(** ** Counting load attempts *)

(** How often the loader call [k] has run its body so far. *)
Definition load_count (k : cached_call) (w : world) : nat :=
  length (filter (cached_call_eqb k) (loads w)).

(** The runs in which the "Clear Model Cache" button is not pressed. *)
Definition is_press (ea : env * action) : Prop :=
  match snd ea with Press _ => True | ClearModelCache => False end.

(** What one run can do to the cache: nothing, or one load of a call that
    was not cached, stored whatever it returned. *)
Definition cache_step (w w' : world) : Prop :=
  (cache w' = cache w /\ loads w' = loads w)
  \/ exists k en, cache_entry k (cache w) = None
       /\ cache w' = (k, en) :: cache w /\ loads w' = loads w ++ [k].

(** Load attempts made plus the one still possible while the call is not
    cached. *)
Definition load_bound (k : cached_call) (w : world) : nat :=
  load_count k w
  + match cache_lookup k (cache w) with Some _ => 0 | None => 1 end.

(** ** Inputs used in the examples *)

(** An outside world with fixed answers: every load ends as [load] says,
    the tokenizer and the classifier answer [sentences] and [classified],
    and the other pipelines echo their input. *)
Definition canned_env (load : option exn) (sentences : exn + list str)
  (classified : exn + (list str * list Float64.float)) : env :=
  {| try_load := fun _ _ => load;
     summarizer_call := fun _ text => inr text;
     qa_call := fun _ _ context => inr (context, None);
     translator_call := fun _ text => inr text;
     classifier_call := fun _ _ _ => classified;
     sent_tokenize := fun _ => sentences |}.

(** The classifier answer of the specification's example, scores written
    as the binary64 numbers Python reads the decimals as. *)
Definition example_scores : list (str * Float64.float) :=
  [ (lit "science", S754_finite false 7295831396340204 (-53));   (* 0.81 *)
    (lit "education", S754_finite false 4953959590107546 (-53)); (* 0.55 *)
    (lit "history", S754_finite false 5224175567749775 (-54));   (* 0.29 *)
    (lit "business", S754_finite false 8646911284551352 (-56)) ]. (* 0.12 *)

(** An outside world where no model can be loaded, and one where every
    model can. *)
Definition offline : env :=
  canned_env (Some (Exception (lit "offline"))) (inr []) (inr ([], [])).

Definition online : env := canned_env None (inr []) (inr ([], [])).

(** A session that already holds a quiz and a keyword list. *)
Definition stored_world : world :=
  set_session
    {| summary := []; quiz := [quiz_prompt (lit "Photosynthesis feeds plants.")];
       translation := []; keywords := [lit "science"] |} init_world.

(** Seven sentences, each longer than 10 characters, and a tokenizer that
    answers them. *)
Definition seven_sentences : list str :=
  map lit ["Plants make sugar from light.";
           "Chlorophyll absorbs the light.";
           "Water is split into oxygen.";
           "Carbon dioxide enters the leaf.";
           "Sugar is stored as starch.";
           "Oxygen leaves through stomata.";
           "Animals breathe that oxygen."]%string.

Definition seven_env : env := canned_env None (inr seven_sentences) (inr ([], [])).

(** A short sentence followed by five long ones. *)
Definition short_then_long : list str :=
  lit "Look." :: firstn 5 seven_sentences.

(** Twenty-five one-letter words. *)
Definition words_25 : str := join [space] (repeat (lit "a") 25).

(** ** Session state before the first run (app.py, 481-483) *)

(** A value the script keeps in [st.session_state]: a string or a list of
    strings. *)
Inductive value :=
| VStr (s : str)
| VList (l : list str).

(** [st.session_state] as a dict: keys in insertion order, each once. *)
Definition state_dict := list (str * value).

(** [key in d] and [d[key]]. *)
Fixpoint dict_find (d : state_dict) (key : str) : option value :=
  match d with
  | [] => None
  | (k, v) :: d' => if str_eqb key k then Some v else dict_find d' key
  end.

Definition session_keys : list str :=
  map lit ["summary"; "quiz"; "translation"; "keywords"]%string.

(** [[] if key in ["quiz", "keywords"] else ""]. *)
Definition default_value (key : str) : value :=
  if existsb (str_eqb key) (map lit ["quiz"; "keywords"]%string)
  then VList [] else VStr [].

(** One turn of the loop: a missing key gets its default, a present one is
    left alone. *)
Definition init_state_key (d : state_dict) (key : str) : state_dict :=
  match dict_find d key with
  | Some _ => d
  | None => d ++ [(key, default_value key)]
  end.

Definition init_state (d : state_dict) : state_dict :=
  fold_left init_state_key session_keys d.

(** ** Download links (app.py, 760-771, 801-805) *)

(** The standard base64 alphabet: A-Z, a-z, 0-9, [+], [/]. *)
Definition b64_char (i : N) : N :=
  (if i <? 26 then 65 + i
   else if i <? 52 then 71 + i
   else if i <? 62 then i - 4
   else if i =? 62 then 43 else 47)%N.

(** [base64.b64encode(bs).decode()]: three bytes to four characters, the
    last group padded with [=]. *)
Fixpoint b64encode (bs : list N) : str :=
  match bs with
  | [] => []
  | [a] => [b64_char (a / 4); b64_char (a mod 4 * 16); 61; 61]%N
  | [a; b] =>
      [b64_char (a / 4); b64_char (a mod 4 * 16 + b / 16);
       b64_char (b mod 16 * 4); 61]%N
  | a :: b :: c :: rest =>
      ([b64_char (a / 4); b64_char (a mod 4 * 16 + b / 16);
        b64_char (b mod 16 * 4 + c / 64); b64_char (c mod 64)]
       ++ b64encode rest)%N
  end.

(** Line 762: [b64 = base64.b64encode(text.encode()).decode()], the payload
    of the link's [data:] URL. *)
Definition download_payload (text : str) : str := b64encode (encode text).

(** Lines 801-805: the tab's closing message is the success note when some
    entry is non-empty, the warning otherwise. *)
Definition downloads_ready (s : session_state) : bool :=
  truthy (summary s) || truthy (quiz s) || truthy (translation s)
  || truthy (keywords s).

(** ** Reading the bytes back *)

(** What a browser does with the link and a reader with the file; used to
    state that the payload determines the text. *)
Definition b64_index (c : N) : N :=
  (if (65 <=? c) && (c <=? 90) then c - 65
   else if (97 <=? c) && (c <=? 122) then c - 71
   else if (48 <=? c) && (c <=? 57) then c + 4
   else if c =? 43 then 62 else 63)%N.

Fixpoint b64decode (cs : str) : list N :=
  match cs with
  | a :: b :: c :: d :: rest =>
      let i0 := b64_index a in
      let i1 := b64_index b in
      let i2 := b64_index c in
      let i3 := b64_index d in
      (if c =? 61 then [i0 * 4 + i1 / 16]
       else if d =? 61 then [i0 * 4 + i1 / 16; i1 mod 16 * 16 + i2 / 4]
       else [i0 * 4 + i1 / 16; i1 mod 16 * 16 + i2 / 4; i2 mod 4 * 64 + i3]
            ++ b64decode rest)%N
  | _ => []
  end.

Fixpoint utf8_decode (bs : list N) : str :=
  match bs with
  | [] => []
  | b0 :: r0 =>
      if (b0 <? 128)%N then b0 :: utf8_decode r0
      else
        match r0 with
        | [] => []
        | b1 :: r1 =>
            if (b0 <? 224)%N
            then ((b0 - 192) * 64 + (b1 - 128))%N :: utf8_decode r1
            else
              match r1 with
              | [] => []
              | b2 :: r2 =>
                  if (b0 <? 240)%N
                  then ((b0 - 224) * 4096 + (b1 - 128) * 64 + (b2 - 128))%N
                       :: utf8_decode r2
                  else
                    match r2 with
                    | [] => []
                    | b3 :: r3 =>
                        ((b0 - 240) * 262144 + (b1 - 128) * 4096
                         + (b2 - 128) * 64 + (b3 - 128))%N
                        :: utf8_decode r3
                    end
              end
        end
  end.

(** A code point [str.encode()] accepts: below U+110000 and no surrogate. *)
Definition scalar (c : N) : bool :=
  ((c <? 55296) || (57344 <=? c) && (c <? 1114112))%N.

(** ** Properties of reachable processes *)

(** The pipeline a loader call yields when it loads. *)
Definition pipeline_of (k : cached_call) : pipeline :=
  Pipeline (loader_task k) (loader_model k).

(** What a loader leaves in the cache for the call [k]: its pipeline and
    no message, or [None] and the error it showed. *)
Definition loaded_entry (k : cached_call) (en : cached) : Prop :=
  en = Cached (Some (pipeline_of k)) []
  \/ exists e, en = Cached None [ErrLoadFailed k e].

(** The cache holds nothing but what the loaders left there. *)
Definition cache_ok (w : world) : Prop :=
  forall k en, cache_entry k (cache w) = Some en -> loaded_entry k en.

(** The cache holds nothing but what the loaders left there, every cached
    call was attempted, and every pipeline called is one this process
    loaded. *)
Definition well_formed (w : world) : Prop :=
  cache_ok w
  /\ (forall k, cache_lookup k (cache w) <> None -> In k (loads w))
  /\ (forall p, In p (calls w) -> exists k, In k (loads w) /\ p = pipeline_of k).

(** What the store can hold: at most 5 questions, each the prompt of a
    sentence longer than 10 characters, and at most 5 keywords. *)
Definition session_ok (s : session_state) : Prop :=
  length (quiz s) <= 5
  /\ Forall (fun q => exists sentence,
               q = quiz_prompt sentence /\ 10 < length sentence) (quiz s)
  /\ length (keywords s) <= 5.

(** What one press does to the process besides the session: at most one
    load, of a call that was not cached, storing what the loader returned;
    then at most one call, of a pipeline the cache holds. *)
Definition press_effect (w w' : world) : Prop :=
  ((cache w' = cache w /\ loads w' = loads w)
   \/ exists k en, cache_entry k (cache w) = None
        /\ loaded_entry k en
        /\ cache w' = (k, en) :: cache w /\ loads w' = loads w ++ [k])
  /\ (calls w' = calls w
      \/ exists k p, cache_lookup k (cache w') = Some (Some p)
           /\ calls w' = calls w ++ [p]).

(** A text as [truncate_text] returns it: words joined by single spaces. *)
Definition normal_form (t : str) : Prop := join [space] (split t) = t.

(** Two outside worlds that answer alike wherever the word budgets of the
    handlers allow a question: loads, the summarizer on 20 to 400 words,
    the question answerer on contexts of 1 to 400 words, the translator,
    the classifier (with the fixed labels) and the tokenizer on 1 to 200
    words. *)
Record agree (E E' : env) : Prop := Agree {
  agree_load : forall t m, try_load E t m = try_load E' t m;
  agree_summarizer : forall p t,
    normal_form t -> 20 <= word_count t <= 400 ->
    summarizer_call E p t = summarizer_call E' p t;
  agree_qa : forall p q c,
    normal_form c -> 1 <= word_count c <= 400 -> blank q = false ->
    qa_call E p q c = qa_call E' p q c;
  agree_translator : forall p t,
    normal_form t -> 1 <= word_count t <= 200 ->
    translator_call E p t = translator_call E' p t;
  agree_classifier : forall p t,
    normal_form t -> 1 <= word_count t <= 200 ->
    classifier_call E p t labels = classifier_call E' p t labels;
  agree_tokenizer : forall t,
    normal_form t -> 1 <= word_count t <= 200 ->
    sent_tokenize E t = sent_tokenize E' t
}.

Arguments agree_load {E E'} _ _ _.
Arguments agree_summarizer {E E'} _ _ {t} _ _.
Arguments agree_qa {E E'} _ _ _ {c} _ _ _.
Arguments agree_translator {E E'} _ _ {t} _ _.
Arguments agree_classifier {E E'} _ _ {t} _ _.
Arguments agree_tokenizer {E E'} _ {t} _ _.

(** The capability a press belongs to, and whether the text it needs is
    missing. *)
Definition request_capability (r : request) : capability :=
  match r with
  | ReqSummarize _ => Summarize
  | ReqAnswer _ _ => Answer
  | ReqQuiz _ => Quiz
  | ReqTranslate _ _ => Translate
  | ReqKeywords _ => Keywords
  end.

Definition request_blank (r : request) : bool :=
  match r with
  | ReqSummarize text => blank text
  | ReqAnswer context question => blank context || blank question
  | ReqQuiz quiz_ctx => blank quiz_ctx
  | ReqTranslate trans_text _ => blank trans_text
  | ReqKeywords keyword_input => blank keyword_input
  end.

(** An outside world like [online], except that its summarizer fails on
    texts of fewer than 20 words. *)
Definition picky_env : env :=
  {| try_load := try_load online;
     summarizer_call := fun _ text =>
       if word_count text <? 20 then inl (Exception (lit "too short"))
       else inr text;
     qa_call := qa_call online;
     translator_call := translator_call online;
     classifier_call := classifier_call online;
     sent_tokenize := sent_tokenize online |}.

(** ** Facts about [split], [join] and [strip] *)

Section SplitFacts.

Lemma split_from_blank cur s :
  blank s = true ->
  split_from cur s = match cur with [] => [] | _ :: _ => [rev cur] end.
Proof.
  revert cur. induction s as [|c s IH]; intros cur Hb; simpl in *.
  - reflexivity.
  - apply andb_true_iff in Hb as [Hc Hs]. rewrite Hc.
    destruct cur; rewrite (IH [] Hs); reflexivity.
Qed.

Lemma split_from_skip pre s :
  blank pre = true -> split_from [] (pre ++ s) = split_from [] s.
Proof.
  induction pre as [|c pre IH]; simpl; intros Hb.
  - reflexivity.
  - apply andb_true_iff in Hb as [Hc Hp]. rewrite Hc. auto.
Qed.

Lemma split_from_word t cur s :
  forallb (fun c => negb (is_space c)) t = true ->
  split_from cur (t ++ s) = split_from (rev t ++ cur) s.
Proof.
  revert cur. induction t as [|c t IH]; simpl; intros cur Ht.
  - reflexivity.
  - apply andb_true_iff in Ht as [Hc Ht].
    apply negb_true_iff in Hc. rewrite Hc, IH by assumption.
    now rewrite <- app_assoc.
Qed.

Lemma is_token_inv t :
  is_token t = true ->
  t <> [] /\ forallb (fun c => negb (is_space c)) t = true.
Proof.
  unfold is_token. intros H. apply andb_true_iff in H as [Hn Hf].
  split; [now destruct t | assumption].
Qed.

Lemma split_token_end t :
  is_token t = true -> split_from [] t = [t].
Proof.
  intros Ht. apply is_token_inv in Ht as [Hne Hf].
  rewrite <- (app_nil_r t) at 1. rewrite split_from_word by assumption.
  simpl. rewrite app_nil_r.
  destruct (rev t) eqn:E.
  - apply (f_equal (@rev N)) in E. rewrite rev_involutive in E. contradiction.
  - rewrite <- E, rev_involutive. reflexivity.
Qed.

Lemma split_token_sep t c rest :
  is_token t = true -> is_space c = true ->
  split_from [] (t ++ c :: rest) = t :: split_from [] rest.
Proof.
  intros Ht Hc. apply is_token_inv in Ht as [Hne Hf].
  rewrite split_from_word by assumption. simpl. rewrite Hc, app_nil_r.
  destruct (rev t) eqn:E.
  - apply (f_equal (@rev N)) in E. rewrite rev_involutive in E. contradiction.
  - rewrite <- E, rev_involutive. reflexivity.
Qed.

(** The words [split] returns are the words of the string, and no other
    list is. *)
Lemma tokens_of_split s ts : tokens_of s ts -> split s = ts.
Proof.
  unfold split. induction 1 as [s Hb|pre t Hp Ht|pre t c rest ts Hp Ht Hc _ IH].
  - now rewrite split_from_blank.
  - rewrite split_from_skip by assumption. now apply split_token_end.
  - rewrite split_from_skip by assumption.
    rewrite split_token_sep by assumption. now rewrite IH.
Qed.

Lemma tokens_of_total s : exists ts, tokens_of s ts.
Proof.
  induction s as [|c s [ts IH]].
  - exists []. now constructor.
  - destruct (is_space c) eqn:Hc.
    + inversion IH as [s0 Hb|pre t Hp Ht|pre t c0 rest ts0 Hp Ht Hc0 Hr]; subst.
      * exists []. constructor. simpl. now rewrite Hc.
      * exists [t]. apply (tokens_last (c :: pre) t); simpl;
          [now rewrite Hc|assumption].
      * exists (t :: ts0). apply (tokens_cons (c :: pre) t c0 rest ts0); simpl;
          auto. now rewrite Hc.
    + assert (Hone : is_token [c] = true)
        by (unfold is_token; simpl; now rewrite Hc).
      assert (Hgrow : forall t, is_token t = true -> is_token (c :: t) = true).
      { intros t Ht. apply is_token_inv in Ht as [_ Hf].
        unfold is_token. simpl. now rewrite Hc, Hf. }
      inversion IH as [s0 Hb|pre t Hp Ht|pre t c0 rest ts0 Hp Ht Hc0 Hr]; subst.
      * destruct s as [|c' rest].
        -- exists [[c]]. apply (tokens_last [] [c]); auto.
        -- simpl in Hb. apply andb_true_iff in Hb as [Hc' Hr].
           exists [[c]]. apply (tokens_cons [] [c] c' rest []); auto.
           now constructor.
      * destruct pre as [|c' pre'].
        -- exists [c :: t]. apply (tokens_last [] (c :: t)); auto.
        -- simpl in Hp. apply andb_true_iff in Hp as [Hc' Hp'].
           exists [[c]; t].
           apply (tokens_cons [] [c] c' (pre' ++ t) [t]); auto.
           now apply tokens_last.
      * destruct pre as [|c' pre'].
        -- exists ((c :: t) :: ts0).
           apply (tokens_cons [] (c :: t) c0 rest ts0); auto.
        -- simpl in Hp. apply andb_true_iff in Hp as [Hc' Hp'].
           exists ([c] :: t :: ts0).
           apply (tokens_cons [] [c] c' (pre' ++ t ++ c0 :: rest) (t :: ts0));
             auto.
           now apply tokens_cons.
Qed.

Lemma split_tokens_of s : tokens_of s (split s).
Proof.
  destruct (tokens_of_total s) as [ts H].
  now rewrite (tokens_of_split s ts H).
Qed.

Lemma tokens_of_all s ts :
  tokens_of s ts -> Forall (fun t => is_token t = true) ts.
Proof. induction 1; auto. Qed.

Lemma split_all_tokens s : Forall (fun t => is_token t = true) (split s).
Proof. exact (tokens_of_all _ _ (split_tokens_of s)). Qed.

(** Joining words with one space and splitting again gives the words back. *)
Lemma split_join ws :
  Forall (fun t => is_token t = true) ws -> split (join [space] ws) = ws.
Proof.
  unfold split. induction 1 as [|w ws Hw Hws IH]; [reflexivity|].
  destruct ws as [|w' ws'].
  - now apply split_token_end.
  - change (join [space] (w :: w' :: ws'))
      with (w ++ space :: join [space] (w' :: ws')).
    rewrite split_token_sep by (assumption || reflexivity).
    now rewrite IH.
Qed.

Lemma blank_split s : blank s = true <-> split s = [].
Proof.
  split.
  - intros Hb. unfold split. now rewrite split_from_blank.
  - intros Hs. pose proof (split_tokens_of s) as H. rewrite Hs in H.
    now inversion H.
Qed.

Lemma lstrip_nil s : lstrip s = [] <-> blank s = true.
Proof.
  induction s as [|c s IH]; simpl; [tauto|].
  destruct (is_space c); simpl; [assumption|].
  split; discriminate.
Qed.

Lemma lstrip_blank s : blank (lstrip s) = true -> lstrip s = [].
Proof.
  induction s as [|c s IH]; simpl; [reflexivity|].
  destruct (is_space c) eqn:Hc; [assumption|].
  simpl. now rewrite Hc.
Qed.

Lemma blank_rev s : blank (rev s) = blank s.
Proof.
  unfold blank. induction s as [|c s IH]; simpl; [reflexivity|].
  rewrite forallb_app, IH. simpl. rewrite andb_true_r. apply andb_comm.
Qed.

(** [not text.strip()] holds exactly for the texts with no word. *)
Lemma strip_nil s : strip s = [] <-> blank s = true.
Proof.
  unfold strip, rstrip. split.
  - intros H. apply (f_equal (@rev N)) in H. rewrite rev_involutive in H.
    simpl in H. apply lstrip_nil in H. rewrite blank_rev in H.
    apply lstrip_blank in H. now apply lstrip_nil.
  - intros H. apply lstrip_nil in H. now rewrite H.
Qed.

Lemma truthy_strip s : truthy (strip s) = negb (blank s).
Proof.
  destruct (blank s) eqn:Hb.
  - apply strip_nil in Hb. now rewrite Hb.
  - destruct (strip s) eqn:Hs; [|reflexivity].
    apply strip_nil in Hs. congruence.
Qed.

Lemma slice_to_nat {A} (n : nat) (l : list A) :
  slice_to (Z.of_nat n) l = firstn n l.
Proof.
  unfold slice_to. destruct (Z.leb_spec 0 (Z.of_nat n)); [|lia].
  now rewrite Nat2Z.id.
Qed.

Lemma word_count_join ws :
  Forall (fun t => is_token t = true) ws ->
  word_count (join [space] ws) = length ws.
Proof. intros H. unfold word_count. now rewrite split_join. Qed.

Lemma Forall_firstn {A} (P : A -> Prop) n (l : list A) :
  Forall P l -> Forall P (firstn n l).
Proof.
  intros H. revert n. induction H; intros [|n]; simpl; auto.
Qed.

End SplitFacts.

(** ** Text Normalizer *)

Section Normalizer.

Lemma truncate_text_nat text (n : nat) :
  truncate_text text (Z.of_nat n)
  = (join [space] (firstn n (split text)), n <? length (split text)).
Proof.
  unfold truncate_text. rewrite slice_to_nat. f_equal.
  destruct (Nat.ltb_spec n (length (split text)));
    [apply Z.ltb_lt | apply Z.ltb_ge]; lia.
Qed.

Lemma split_truncate_text text (n : nat) :
  split (fst (truncate_text text (Z.of_nat n))) = firstn n (split text).
Proof.
  rewrite truncate_text_nat. simpl.
  apply split_join, Forall_firstn, split_all_tokens.
Qed.

(** C1. For every text and every natural number [n], [truncate_text text n]
    returns the first [n] whitespace-delimited words of [text] joined by
    single spaces, with a flag that is true exactly when [text] has more
    than [n] words; the returned text has those [n] words and no more, and
    a text with no word gives the empty string and [false]. *)
Theorem truncate_text_spec : forall (text : str) (n : nat),
  let words := split text in
  let r := truncate_text text (Z.of_nat n) in
  tokens_of text words
  /\ fst r = join [space] (firstn n words)
  /\ (snd r = true <-> n < word_count text)
  /\ split (fst r) = firstn n words
  /\ word_count (fst r) <= n
  /\ (blank text = true -> r = ([], false)).
Proof.
  intros text n words r. subst words r.
  split; [apply split_tokens_of|].
  split; [now rewrite truncate_text_nat|].
  split; [rewrite truncate_text_nat; simpl; apply Nat.ltb_lt|].
  split; [apply split_truncate_text|].
  split.
  - unfold word_count. rewrite split_truncate_text. apply firstn_le_length.
  - intros Hb. apply blank_split in Hb. rewrite truncate_text_nat, Hb.
    now rewrite firstn_nil.
Qed.

End Normalizer.

(** ** Quiz Prompt Builder *)

Section QuizBuilder.

Lemma get_first_words_12 s :
  get_first_words s 12
  = if 12 <? word_count s then join [space] (firstn 12 (split s)) else s.
Proof.
  unfold get_first_words, word_count.
  change 12%Z with (Z.of_nat 12). rewrite slice_to_nat.
  destruct (Nat.ltb_spec 12 (length (split s))) as [Hlt|Hge].
  - destruct (Z.leb_spec (Z.of_nat (length (split s))) (Z.of_nat 12));
      [lia|reflexivity].
  - destruct (Z.leb_spec (Z.of_nat (length (split s))) (Z.of_nat 12));
      [reflexivity|lia].
Qed.

(** C6. The prompt built for a sentence [s] is
    "What is the main concept in: '<f>'?" where [f] is the first 12 words of
    [s] joined by single spaces when [s] has more than 12 words and [s]
    itself otherwise; the fragment [f] has at most 12 words. *)
Theorem quiz_prompt_spec : forall s : str,
  let f :=
    if 12 <? word_count s then join [space] (firstn 12 (split s)) else s in
  quiz_prompt s = lit "What is the main concept in: '" ++ f ++ lit "'?"
  /\ get_first_words s 12 = f
  /\ word_count f <= 12.
Proof.
  intros s f. subst f. unfold quiz_prompt. rewrite get_first_words_12.
  split; [reflexivity|]. split; [reflexivity|].
  destruct (Nat.ltb_spec 12 (word_count s)) as [Hlt|Hge]; [|exact Hge].
  rewrite word_count_join by apply Forall_firstn, split_all_tokens.
  apply firstn_le_length.
Qed.

Lemma slice_to_5 {A} (l : list A) : slice_to 5 l = firstn 5 l.
Proof. change 5%Z with (Z.of_nat 5). apply slice_to_nat. Qed.

Lemma filter_all {A} (f : A -> bool) (l : list A) :
  Forall (fun x => f x = true) l -> filter f l = l.
Proof.
  induction 1 as [|x l Hx _ IH]; simpl; [reflexivity|].
  now rewrite Hx, IH.
Qed.

Lemma quiz_questions_length sentences :
  length (quiz_questions sentences) <= length sentences.
Proof.
  unfold quiz_questions. rewrite length_map. apply filter_length_le.
Qed.

Lemma truthy_nil {A} (l : list A) : truthy l = false <-> l = [].
Proof. destruct l; simpl; split; congruence. Qed.

Lemma quiz_btn_tokenized E quiz_ctx w sentences :
  blank quiz_ctx = false ->
  sent_tokenize E (fst (truncate_text quiz_ctx 200)) = inr sentences ->
  quiz_btn E quiz_ctx w
  = let questions := quiz_questions (firstn 5 sentences) in
    if length (firstn 5 sentences) =? 0 then ([WarnNoSentences], w)
    else if truthy questions
    then ([Result (QuizCard questions)],
          set_session
            {| summary := summary (session w); quiz := questions;
               translation := translation (session w);
               keywords := keywords (session w) |} w)
    else ([WarnNoQuestions], w).
Proof.
  intros Hb Ht. unfold quiz_btn. rewrite truthy_strip, Hb. simpl negb.
  cbv iota. destruct (truncate_text quiz_ctx 200) as [trunc_quiz flag].
  simpl in Ht. rewrite Ht, slice_to_5. reflexivity.
Qed.

(** C2, as the code has it.  On a text with a word in it, cut to 200 words
    and split into sentences by the tokenizer, the quiz handler keeps the
    first 5 sentences and builds one prompt for each of those that has more
    than 10 characters, in text order, shows them and stores them when
    there is one: the cut to 5 comes before the test on the length.  There are
    never more than 5 prompts, and with 5 or more sentences whose first 5
    are all longer than 10 characters there are exactly 5, one for each of
    the first 5 sentences. *)
Theorem quiz_builder_spec : forall (E : env) (quiz_ctx : str) (w : world)
    (sentences : list str),
  blank quiz_ctx = false ->
  sent_tokenize E (fst (truncate_text quiz_ctx 200)) = inr sentences ->
  let questions :=
    map quiz_prompt (filter (fun s => 10 <? length s) (firstn 5 sentences)) in
  word_count (fst (truncate_text quiz_ctx 200)) <= 200
  /\ (questions <> [] ->
      fst (quiz_btn E quiz_ctx w) = [Result (QuizCard questions)]
      /\ quiz (session (snd (quiz_btn E quiz_ctx w))) = questions)
  /\ (questions = [] ->
      existsb is_result (fst (quiz_btn E quiz_ctx w)) = false)
  /\ length questions <= 5
  /\ (5 <= length sentences ->
      Forall (fun s => 10 < length s) (firstn 5 sentences) ->
      questions = map quiz_prompt (firstn 5 sentences)
      /\ length questions = 5).
Proof.
  intros E quiz_ctx w sentences Hb Ht questions.
  assert (Hq : questions = quiz_questions (firstn 5 sentences)) by reflexivity.
  split.
  { change 200%Z with (Z.of_nat 200). unfold word_count.
    rewrite split_truncate_text. apply firstn_le_length. }
  rewrite (quiz_btn_tokenized E quiz_ctx w sentences Hb Ht). cbv zeta. rewrite <- Hq.
  split; [|split; [|split]].
  - intros Hne. destruct questions as [|q qs] eqn:Eq; [contradiction|].
    destruct (firstn 5 sentences) as [|s ss] eqn:Es; [discriminate Hq|].
    simpl. split; reflexivity.
  - intros Hnil. rewrite Hnil.
    destruct (length (firstn 5 sentences) =? 0); reflexivity.
  - rewrite Hq. etransitivity; [apply quiz_questions_length|].
    apply firstn_le_length.
  - intros Hlen Hall. subst questions.
    rewrite filter_all.
    + split; [reflexivity|]. rewrite length_map, length_firstn. lia.
    + eapply Forall_impl; [|exact Hall]. intros s Hs. now apply Nat.ltb_lt.
Qed.

(** The example of C2: seven sentences, all longer than 10 characters,
    give the five prompts of the first five. *)
Lemma quiz_builder_spec_seven_sentences :
  fst (quiz_btn seven_env (join [space] seven_sentences) init_world)
  = [Result (QuizCard (map quiz_prompt (firstn 5 seven_sentences)))].
Proof.
  refine (proj1 (proj1 (proj2 (quiz_builder_spec seven_env
            (join [space] seven_sentences) init_world seven_sentences _ _))
            _)).
  - reflexivity.
  - reflexivity.
  - discriminate.
Defined.

(** C2 as the specification states it fails: of a short sentence followed
    by five long ones, the first 5 sentences longer than 10 characters are
    the five long ones, and the handler builds prompts for four of them
    only, because the short sentence took one of the 5 places before the
    test on the length. *)
Lemma quiz_short_sentence_takes_a_place :
  let E := canned_env None (inr short_then_long) (inr ([], [])) in
  let text := join [space] short_then_long in
  sent_tokenize E (fst (truncate_text text 200)) = inr short_then_long
  /\ firstn 5 (filter (fun s => 10 <? length s) short_then_long)
     = firstn 5 seven_sentences
  /\ fst (quiz_btn E text init_world)
     = [Result (QuizCard (map quiz_prompt (firstn 4 seven_sentences)))]
  /\ length (map quiz_prompt (firstn 4 seven_sentences)) = 4
  /\ length (firstn 5 (filter (fun s => 10 <? length s) short_then_long)) = 5.
Proof. vm_compute. repeat split. Qed.

End QuizBuilder.

(** ** Keyword Selector *)

Section KeywordSelector.

Import Float64.

Lemma digits2_pos_size m : digits2_pos m = Pos.size m.
Proof. induction m; simpl; congruence. Qed.

Lemma digits2_pos_bounds m :
  (2 ^ (Zpos (digits2_pos m) - 1) <= Zpos m < 2 ^ Zpos (digits2_pos m))%Z.
Proof.
  rewrite digits2_pos_size.
  pose proof (Pos.size_gt m) as Hgt. pose proof (Pos.size_le m) as Hle.
  apply Pos2Z.pos_lt_pos in Hgt. apply Pos2Z.pos_le_pos in Hle.
  rewrite Pos2Z.inj_pow in Hgt, Hle.
  assert (Hn : exists n, (0 <= n)%Z /\ Zpos (Pos.size m) = Z.succ n)
    by (exists (Zpos (Pos.size m) - 1)%Z; lia).
  destruct Hn as [n [Hn0 Hn]]. rewrite Hn in *.
  replace (Z.succ n - 1)%Z with n by lia.
  rewrite Z.pow_succ_r in * by assumption. lia.
Qed.

Lemma Qltb_dyadic m e :
  Qltb (3 # 10) (dyadic m e)
  = if (0 <=? e)%Z then (3 <? 10 * (Zpos m * 2 ^ e))%Z
    else (3 * 2 ^ (- e) <? 10 * Zpos m)%Z.
Proof.
  unfold Qltb, dyadic, Qle_bool, inject_Z.
  destruct (Z.leb_spec 0 e) as [He|He]; cbn [Qnum Qden].
  - rewrite Z.ltb_antisym. f_equal. f_equal; lia.
  - rewrite Z2Pos.id by (apply Z.pow_pos_nonneg; lia).
    rewrite Z.ltb_antisym. f_equal. f_equal; lia.
Qed.

Lemma Qltb_neg_dyadic m e : Qltb (3 # 10) (- dyadic m e) = false.
Proof.
  unfold Qltb, dyadic, Qle_bool, inject_Z, Qopp.
  destruct (Z.leb_spec 0 e) as [He|He]; cbn [Qnum Qden];
    apply negb_false_iff, Z.leb_le.
  - assert (0 < Zpos m * 2 ^ e)%Z
      by (apply Z.mul_pos_pos; [lia|apply Z.pow_pos_nonneg; lia]).
    lia.
  - lia.
Qed.

(** Comparing a float with the literal [0.3] decides whether the number it
    stands for is above 3/10: no binary64 number lies between the literal
    and 3/10. *)
Lemma gt_lit_0_3 x : valid x = true -> gt x lit_0_3 = above (3 # 10) x.
Proof.
  destruct x as [s|s| |s m e]; intros Hv; try reflexivity.
  - unfold gt, SFltb; simpl. now destruct s.
  - destruct s; [unfold above; now rewrite Qltb_neg_dyadic|].
    unfold above. rewrite Qltb_dyadic.
    unfold valid, valid_binary, bounded, canonical_mantissa, fexp, emin in Hv.
    apply andb_true_iff in Hv as [Hc _]. apply Z.eqb_eq in Hc.
    unfold prec, emax in Hc.
    pose proof (digits2_pos_bounds m) as [Hlo Hhi].
    unfold gt, SFltb, SFcompare, lit_0_3.
    destruct (Z.compare_spec (-54) e) as [He|He|He].
    + subst e. simpl Z.leb. cbv iota.
      change (2 ^ (- -54))%Z with 18014398509481984%Z.
      rewrite Pos.compare_cont_spec. simpl Pos.switch_Eq.
      destruct (Pos.compare_spec 5404319552844595 m) as [Hm|Hm|Hm].
      * subst m. reflexivity.
      * apply Pos2Z.pos_lt_pos in Hm. symmetry. apply Z.ltb_lt. lia.
      * apply Pos2Z.pos_lt_pos in Hm. symmetry. apply Z.ltb_ge. lia.
    + assert (Hd : Zpos (digits2_pos m) = 53%Z) by lia.
      rewrite Hd in Hlo. change (2 ^ (53 - 1))%Z with 4503599627370496%Z in Hlo.
      symmetry. destruct (Z.leb_spec 0 e) as [He0|He0]; apply Z.ltb_lt.
      * assert (0 < Zpos m * 2 ^ e)%Z
          by (apply Z.mul_pos_pos; [lia|apply Z.pow_pos_nonneg; lia]).
        lia.
      * assert (2 ^ (- e) <= 2 ^ 53)%Z by (apply Z.pow_le_mono_r; lia).
        change (2 ^ 53)%Z with 9007199254740992%Z in *. lia.
    + assert (Hd : (Zpos (digits2_pos m) <= 53)%Z) by lia.
      assert (Hm : (Zpos m < 2 ^ 53)%Z).
      { eapply Z.lt_le_trans; [exact Hhi|]. apply Z.pow_le_mono_r; lia. }
      assert (H55 : (2 ^ 55 <= 2 ^ (- e))%Z) by (apply Z.pow_le_mono_r; lia).
      change (2 ^ 53)%Z with 9007199254740992%Z in *.
      change (2 ^ 55)%Z with 36028797018963968%Z in *.
      symmetry. destruct (Z.leb_spec 0 e) as [He0|He0]; [lia|].
      apply Z.ltb_ge. lia.
Qed.

Lemma lit_0_3_below :
  valid lit_0_3 = true /\ above (3 # 10) lit_0_3 = false.
Proof. split; reflexivity. Qed.

Lemma combine_fst_snd {A B} (ps : list (A * B)) :
  combine (map fst ps) (map snd ps) = ps.
Proof.
  induction ps as [|[a b] ps IH]; simpl; [reflexivity|]. now rewrite IH.
Qed.

Lemma In_firstn {A} n (x : A) l : In x (firstn n l) -> In x l.
Proof.
  revert n; induction l as [|y l IH]; intros [|n]; simpl; try tauto.
  intros [H|H]; [now left|right; eauto].
Qed.

(** C3. From the classifier's (label, score) pairs the Keyword Selector
    keeps the labels whose score is above 3/10, in the order given, and of
    those the first 5: no more than 5 labels, none with a score of 3/10 or
    less.  On the pairs science 0.81, education 0.55, history 0.29,
    business 0.12 it gives science, education. *)
Theorem select_keywords_spec : forall ps : list (str * float),
  Forall (fun p => valid (snd p) = true) ps ->
  let out := select_keywords (map fst ps) (map snd ps) in
  out = firstn 5 (map fst (filter (fun p => above (3 # 10) (snd p)) ps))
  /\ length out <= 5
  /\ (forall lbl, In lbl out ->
      exists score, In (lbl, score) ps /\ above (3 # 10) score = true)
  /\ select_keywords (map fst example_scores) (map snd example_scores)
     = [lit "science"; lit "education"].
Proof.
  intros ps Hv out.
  assert (Hout : out
    = firstn 5 (map fst (filter (fun p => above (3 # 10) (snd p)) ps))).
  { subst out. unfold select_keywords.
    rewrite slice_to_5, combine_fst_snd. do 2 f_equal.
    apply filter_ext_in. intros p Hp. apply gt_lit_0_3.
    rewrite Forall_forall in Hv. now apply Hv. }
  split; [exact Hout|]. split; [|split].
  - rewrite Hout. apply firstn_le_length.
  - intros lbl Hin. rewrite Hout in Hin. apply In_firstn in Hin.
    apply in_map_iff in Hin as [[l sc] [Hl Hp]]. simpl in Hl. subst l.
    apply filter_In in Hp as [Hp Ha]. now exists sc.
  - reflexivity.
Qed.

(** The example of C3: the four scores are binary64 numbers, and the
    selector gives science, education on them. *)
Lemma select_keywords_example :
  Forall (fun p => valid (snd p) = true) example_scores
  /\ select_keywords (map fst example_scores) (map snd example_scores)
     = firstn 5
         (map fst (filter (fun p => above (3 # 10) (snd p)) example_scores)).
Proof.
  assert (Hv : Forall (fun p => valid (snd p) = true) example_scores)
    by (repeat constructor).
  split; [exact Hv|]. exact (proj1 (select_keywords_spec example_scores Hv)).
Defined.

End KeywordSelector.

(** ** Export Adapter *)

Section ExportAdapter.

(** C7. The download of a stored keyword list science, education is the
    bytes of "Extracted Keywords:", a blank line, and one line "- keyword"
    per keyword in order; the rendering is a function of the stored list
    alone. *)
Theorem keywords_export_bytes :
  (forall (sm : str) (qz : list str) (tr : str),
     keywords_txt
       (download_tab
          {| summary := sm; quiz := qz; translation := tr;
             keywords := [lit "science"; lit "education"] |})
     = Some (lit "Extracted Keywords:" ++ [10; 10]%N ++ lit "- science"
             ++ [10]%N ++ lit "- education"))
  /\ (forall s : session_state,
        keywords_txt (download_tab s)
        = if truthy (keywords s)
          then Some (encode (lit "Extracted Keywords:" ++ [newline; newline]
                             ++ join [newline]
                                  (map (fun kw => lit "- " ++ kw)
                                     (keywords s))))
          else None)
  /\ (forall s1 s2 : session_state,
        keywords s1 = keywords s2 ->
        keywords_txt (download_tab s1) = keywords_txt (download_tab s2)).
Proof.
  split; [|split].
  - intros sm qz tr. reflexivity.
  - intros s. reflexivity.
  - intros s1 s2 H. simpl. now rewrite H.
Qed.

End ExportAdapter.

(** ** Model cache *)

(** Case analysis on every test a handler makes. *)
Ltac break_handler :=
  repeat match goal with
    | |- context [match ?x with _ => _ end] => destruct x eqn:?
    | |- context [if ?b then _ else _] => destruct b eqn:?
    end.

Section ModelCache.

Lemma str_eqb_eq a b : str_eqb a b = true <-> a = b.
Proof.
  unfold str_eqb. destruct (list_eq_dec N.eq_dec a b); split; congruence.
Qed.

Lemma cached_call_eqb_eq a b : cached_call_eqb a b = true <-> a = b.
Proof.
  destruct a, b; simpl; split; try congruence; try discriminate.
  - intros H. apply str_eqb_eq in H. now subst.
  - intros H. apply str_eqb_eq. congruence.
Qed.

Lemma cached_call_eqb_refl a : cached_call_eqb a a = true.
Proof. now apply cached_call_eqb_eq. Qed.

Lemma cache_lookup_none k c :
  cache_lookup k c = None <-> cache_entry k c = None.
Proof.
  unfold cache_lookup. destruct (cache_entry k c); simpl; split; congruence.
Qed.

Lemma cache_lookup_some k c en :
  cache_entry k c = Some en -> cache_lookup k c = Some (cached_value en).
Proof. unfold cache_lookup. now intros ->. Qed.

Lemma cache_entry_cons k k0 en c :
  cache_entry k ((k0, en) :: c)
  = if cached_call_eqb k k0 then Some en else cache_entry k c.
Proof. reflexivity. Qed.

Lemma cache_step_refl w : cache_step w w.
Proof. left. split; reflexivity. Qed.

Lemma cache_resource_step E k w :
  cache_step w (snd (cache_resource E k w)).
Proof.
  unfold cache_resource. destruct (cache_entry k (cache w)) eqn:Hk.
  - apply cache_step_refl.
  - destruct (loader_body E k) as [v msgs]. right.
    exists k, (Cached v msgs). auto.
Qed.

Lemma cache_resource_session E k w :
  session (snd (cache_resource E k w)) = session w
  /\ calls (snd (cache_resource E k w)) = calls w.
Proof.
  unfold cache_resource. destruct (cache_entry k (cache w));
    [|destruct (loader_body E k)]; split; reflexivity.
Qed.

Lemma cache_step_frame w w1 w' :
  cache_step w w1 -> cache w' = cache w1 -> loads w' = loads w1 ->
  cache_step w w'.
Proof.
  intros [[Hc Hl]|(k & v & Hk & Hc & Hl)] Hc' Hl'.
  - left. split; congruence.
  - right. exists k, v. repeat split; congruence.
Qed.

Ltac frame_cache :=
  simpl in *;
  first [ apply cache_step_refl
        | left; split; reflexivity
        | eapply cache_step_frame; [eassumption|reflexivity|reflexivity] ].

Lemma press_cache_step E r w : cache_step w (snd (press E r w)).
Proof.
  destruct r as [text|context question|quiz_ctx|trans_text lang|keyword_input];
    simpl.
  - unfold sum_btn, get_summarizer.
    pose proof (cache_resource_step E CallSummarizer w) as Hs.
    break_handler; frame_cache.
  - unfold qa_btn, get_qa.
    pose proof (cache_resource_step E CallQA w) as Hs.
    break_handler; frame_cache.
  - unfold quiz_btn. break_handler; frame_cache.
  - unfold trans_btn, load_translator.
    destruct (negb (truthy (strip trans_text))); [apply cache_step_refl|].
    destruct (truncate_text trans_text 200) as [trunc_trans flag].
    destruct (dict_get model_map lang) as [e|model_name];
      [apply cache_step_refl|].
    pose proof (cache_resource_step E (CallTranslator model_name) w) as Hs.
    break_handler; frame_cache.
  - unfold kw_btn, get_classifier.
    pose proof (cache_resource_step E CallClassifier w) as Hs.
    break_handler; frame_cache.
Qed.

Lemma cache_step_bound k w w' :
  cache_step w w' -> load_bound k w' <= load_bound k w.
Proof.
  unfold load_bound, load_count, cache_lookup.
  intros [[Hc Hl]|(k0 & en & Hk & Hc & Hl)]; rewrite Hc, Hl; [lia|].
  rewrite filter_app, length_app, cache_entry_cons. simpl.
  destruct (cached_call_eqb k k0) eqn:Heq.
  - apply cached_call_eqb_eq in Heq. subst k0. rewrite Hk. simpl. lia.
  - simpl. lia.
Qed.

Lemma cache_step_keeps k en w w' :
  cache_step w w' -> cache_entry k (cache w) = Some en ->
  cache_entry k (cache w') = Some en.
Proof.
  intros [[Hc Hl]|(k0 & en0 & Hk & Hc & Hl)] Hv; rewrite Hc; [assumption|].
  rewrite cache_entry_cons.
  destruct (cached_call_eqb k k0) eqn:Heq; [|assumption].
  apply cached_call_eqb_eq in Heq. congruence.
Qed.

Lemma step_cache_step E a w :
  is_press (E, a) -> cache_step w (snd (step E a w)).
Proof.
  destruct a as [r|]; [intros _; apply press_cache_step|contradiction].
Qed.

Lemma run_bound trace : forall w k,
  Forall is_press trace -> load_bound k (run trace w) <= load_bound k w.
Proof.
  induction trace as [|[E a] trace IH]; intros w k Hp; simpl; [lia|].
  inversion Hp as [|ea tr Ha Htr]; subst.
  etransitivity; [apply IH; assumption|].
  now apply cache_step_bound, step_cache_step.
Qed.

Lemma run_keeps trace : forall w k en,
  Forall is_press trace -> cache_entry k (cache w) = Some en ->
  cache_entry k (cache (run trace w)) = Some en.
Proof.
  induction trace as [|[E a] trace IH]; intros w k en Hp Hv; simpl;
    [assumption|].
  inversion Hp as [|ea tr Ha Htr]; subst.
  apply IH; [assumption|]. eapply cache_step_keeps; [|eassumption].
  now apply step_cache_step.
Qed.

Lemma run_cached_count trace : forall w k en,
  Forall is_press trace -> cache_entry k (cache w) = Some en ->
  load_count k (run trace w) = load_count k w.
Proof.
  induction trace as [|[E a] trace IH]; intros w k en Hp Hv; simpl;
    [reflexivity|].
  inversion Hp as [|ea tr Ha Htr]; subst.
  assert (Hs : cache_step w (snd (step E a w)))
    by now apply step_cache_step.
  rewrite (IH _ k en Htr (cache_step_keeps k en _ _ Hs Hv)).
  destruct Hs as [[_ Hl]|(k0 & en0 & Hk0 & _ & Hl)]; unfold load_count;
    rewrite Hl; [reflexivity|].
  rewrite filter_app, length_app. simpl.
  destruct (cached_call_eqb k k0) eqn:Heq; [|simpl; lia].
  apply cached_call_eqb_eq in Heq. congruence.
Qed.

(** C4, as the code has it.  While the cache is not cleared, the body of a
    loader call runs at most once per process, whether the load succeeds or
    fails.  A failed load is reported and its [None] is stored, with the
    error message, like any other result: later calls get the stored
    [None], show the stored error again and do not load again, whatever
    the outside world has become.  Clearing the cache is what makes the
    next call load again. *)
Theorem model_cache_memoises :
  (forall trace k, Forall is_press trace ->
     load_count k (run trace init_world) <= 1)
  /\ (forall trace w k, Forall is_press trace ->
        load_count k (run trace w) <= load_count k w + 1)
  /\ (forall E k w e,
        cache_lookup k (cache w) = None ->
        try_load E (loader_task k) (loader_model k) = Some e ->
        let w1 := snd (cache_resource E k w) in
        fst (cache_resource E k w) = (None, [ErrLoadFailed k e])
        /\ cache_lookup k (cache w1) = Some None
        /\ load_count k w1 = load_count k w + 1
        /\ forall trace E', Forall is_press trace ->
             let w2 := run trace w1 in
             cache_resource E' k w2 = (None, [ErrLoadFailed k e], w2)
             /\ load_count k w2 = load_count k w1)
  /\ (forall E k w,
        loads (snd (cache_resource E k (clear_cache w))) = loads w ++ [k]).
Proof.
  split; [|split; [|split]].
  - intros trace k Hp. pose proof (run_bound trace init_world k Hp) as Hb.
    change (load_bound k init_world) with 1 in Hb. unfold load_bound in Hb.
    destruct (cache_lookup k (cache (run trace init_world))); lia.
  - intros trace w k Hp. pose proof (run_bound trace w k Hp) as Hb.
    unfold load_bound in Hb.
    destruct (cache_lookup k (cache (run trace w)));
      destruct (cache_lookup k (cache w)); lia.
  - intros E k w e Hk He w1. subst w1. apply cache_lookup_none in Hk.
    unfold cache_resource, loader_body. rewrite Hk, He. cbn [fst snd cache].
    unfold cache_lookup. rewrite cache_entry_cons, cached_call_eqb_refl.
    split; [reflexivity|]. split; [reflexivity|]. split.
    + unfold load_count. simpl. rewrite filter_app, length_app. simpl.
      rewrite cached_call_eqb_refl. reflexivity.
    + intros trace E' Hp.
      match goal with |- context [run trace ?w0] => set (w1 := w0) end.
      assert (Hc : cache_entry k (cache w1)
                   = Some (Cached None [ErrLoadFailed k e]))
        by (subst w1; simpl; now rewrite cached_call_eqb_refl).
      cbv zeta. rewrite (run_keeps trace w1 k _ Hp Hc).
      split; [reflexivity|]. exact (run_cached_count trace w1 k _ Hp Hc).
  - intros E k w. unfold cache_resource. simpl.
    destruct (loader_body E k). reflexivity.
Qed.

(** Two presses of "Generate Summary" in one process, the first while no
    model can be loaded: the load is attempted once. *)
Lemma model_cache_memoises_two_presses :
  load_count CallSummarizer
    (run [(offline, Press (ReqSummarize words_25));
          (online, Press (ReqSummarize words_25))] init_world) <= 1.
Proof.
  apply (proj1 model_cache_memoises). repeat constructor.
Defined.

(** C4 as the specification states it fails: after a failed load the cache
    does hold an entry for the call, and the next press, in a world where
    the model would load, does not load: it shows the stored error again
    and no summary; a fresh process in that same world produces the
    summary. *)
Lemma failed_load_stays_cached :
  let w1 := snd (press offline (ReqSummarize words_25) init_world) in
  fst (press offline (ReqSummarize words_25) init_world)
  = [ErrLoadFailed CallSummarizer (Exception (lit "offline"))]
  /\ cache_lookup CallSummarizer (cache w1) = Some None
  /\ loads w1 = [CallSummarizer]
  /\ press online (ReqSummarize words_25) w1
     = ([ErrLoadFailed CallSummarizer (Exception (lit "offline"))], w1)
  /\ fst (press online (ReqSummarize words_25) init_world)
     = [Result (SummaryCard words_25 25)].
Proof. vm_compute. repeat split. Qed.

End ModelCache.

(** ** Handlers: preconditions and the session store *)

Section Handlers.

Lemma truncate_text_400 text :
  truncate_text text 400
  = (join [space] (firstn 400 (split text)), 400 <? length (split text)).
Proof. change 400%Z with (Z.of_nat 400). apply truncate_text_nat. Qed.

(** C5. A text that has fewer than 20 words after the cut to 400 words
    makes "Generate Summary" stop with an input error (the text is missing,
    or it is too short) and leaves the process as it was: no load is
    attempted and no pipeline is called. *)
Theorem summarize_needs_20_words : forall (E : env) (text : str) (w : world),
  word_count (fst (truncate_text text 400)) < 20 ->
  sum_btn E text w
  = (if blank text then [ErrProvideText Summarize] else [ErrNeed20Words], w)
  /\ loads (snd (sum_btn E text w)) = loads w
  /\ calls (snd (sum_btn E text w)) = calls w
  /\ cache (snd (sum_btn E text w)) = cache w.
Proof.
  intros E text w Hlt.
  assert (Heq : sum_btn E text w
    = (if blank text then [ErrProvideText Summarize] else [ErrNeed20Words],
       w)).
  { unfold sum_btn. rewrite truthy_strip, negb_involutive.
    destruct (blank text); [reflexivity|].
    unfold word_count in Hlt. rewrite truncate_text_400 in *.
    cbn [fst] in Hlt.
    rewrite split_join in * by apply Forall_firstn, split_all_tokens.
    rewrite length_firstn in Hlt.
    destruct (Nat.ltb_spec 400 (length (split text))); [lia|].
    destruct (Nat.ltb_spec (length (firstn 400 (split text))) 20) as [_|Hge];
      [reflexivity|].
    rewrite length_firstn in Hge. lia. }
  rewrite Heq. repeat split.
Qed.

Lemma summarize_needs_20_words_five_words :
  sum_btn online (lit "too short to be summarised") init_world
  = ([ErrNeed20Words], init_world).
Proof.
  refine (proj1 (summarize_needs_20_words online
                   (lit "too short to be summarised") init_world _)).
  vm_compute. repeat constructor.
Defined.

Lemma dict_get_unsupported lang :
  ~ In lang (map lit ["French"; "German"; "Spanish"; "Italian"; "Hindi"]%string)
  -> dict_get model_map lang = inl (KeyError lang).
Proof.
  intros Hn. unfold model_map, dict_get.
  repeat match goal with
    | |- context [str_eqb lang ?k] =>
        let Heq := fresh "Heq" in
        destruct (str_eqb lang k) eqn:Heq;
        [apply str_eqb_eq in Heq; exfalso; apply Hn; subst lang; simpl; tauto|]
    end.
  reflexivity.
Qed.

(** C8. With a target language outside French, German, Spanish, Italian,
    Hindi (Klingon, say), "Translate Now" on a text to translate fails with
    the error of the lookup in [model_map], the configuration error of the
    specification; no load is attempted and the process is left as it
    was. *)
Theorem translate_unsupported_language :
  forall (E : env) (trans_text lang : str) (w : world),
  blank trans_text = false ->
  ~ In lang (map lit ["French"; "German"; "Spanish"; "Italian"; "Hindi"]%string)
  -> dict_get model_map lang = inl (KeyError lang)
  /\ trans_btn E trans_text lang w
     = ([ErrCapability Translate (KeyError lang)], w)
  /\ Forall (fun m => is_error m = true) (fst (trans_btn E trans_text lang w))
  /\ loads (snd (trans_btn E trans_text lang w)) = loads w
  /\ cache (snd (trans_btn E trans_text lang w)) = cache w.
Proof.
  intros E trans_text lang w Hb Hn.
  pose proof (dict_get_unsupported lang Hn) as Hd.
  assert (Heq : trans_btn E trans_text lang w
    = ([ErrCapability Translate (KeyError lang)], w)).
  { unfold trans_btn. rewrite truthy_strip, Hb. simpl negb. cbv iota.
    destruct (truncate_text trans_text 200). now rewrite Hd. }
  split; [exact Hd|]. split; [exact Heq|]. rewrite Heq.
  split; [repeat constructor|]. split; reflexivity.
Qed.

Lemma translate_unsupported_language_klingon :
  trans_btn online (lit "good morning") (lit "Klingon") init_world
  = ([ErrCapability Translate (KeyError (lit "Klingon"))], init_world).
Proof.
  refine (proj1 (proj2 (translate_unsupported_language online
                          (lit "good morning") (lit "Klingon") init_world
                          _ _))).
  - reflexivity.
  - simpl. intros H. repeat (destruct H as [H|H]; [discriminate H|]). exact H.
Defined.

Ltac no_result H :=
  rewrite ?existsb_app in H; simpl in H; rewrite ?orb_true_r in H;
  try discriminate H.

Ltac same_session E k w :=
  let Hs := fresh "Hs" in
  pose proof (proj1 (cache_resource_session E k w)) as Hs;
  match goal with
  | H : cache_resource E k w = _ |- _ => rewrite H in Hs; exact Hs
  end.

(** What a loader call hands to its handler in a process whose cache the
    loaders filled: the pipeline and no message, or [None] and the load
    error, shown by the load or shown again from the cache. *)
Lemma cache_resource_loaded E k w v shown w1 :
  cache_ok w -> cache_resource E k w = (v, shown, w1) ->
  loaded_entry k (Cached v shown).
Proof.
  intros Hok. unfold cache_resource, loader_body.
  destruct (cache_entry k (cache w)) as [en|] eqn:Hk.
  - intros H. inversion H; subst. destruct en as [v' shown']. simpl.
    now apply Hok.
  - destruct (try_load E (loader_task k) (loader_model k)) as [e|];
      intros H; inversion H; subst; [right; now exists e|now left].
Qed.

Lemma cache_resource_shown E k w v shown w1 :
  cache_ok w -> cache_resource E k w = (v, shown, w1) ->
  existsb is_result shown = false
  /\ match v with Some _ => shown = [] | None => True end.
Proof.
  intros Hok H.
  destruct (cache_resource_loaded E k w v shown w1 Hok H) as [Hl|[e Hl]];
    inversion Hl; subst; split; reflexivity || exact I.
Qed.

Ltac shown_by_loader Hok :=
  match goal with
  | H : cache_resource _ _ _ = (Some _, ?l, _) |- _ =>
      apply (cache_resource_shown _ _ _ _ _ _ Hok) in H;
      destruct H as [_ H]; subst l
  | H : cache_resource _ _ _ = (None, ?l, _) |- _ =>
      apply (cache_resource_shown _ _ _ _ _ _ Hok) in H;
      destruct H as [H _]
  end.

(** A press that shows an error shows no result card. *)
Lemma error_excludes_result E r w :
  cache_ok w ->
  existsb is_error (fst (press E r w)) = true ->
  existsb is_result (fst (press E r w)) = false.
Proof.
  intros Hok.
  destruct r as [text|context question|quiz_ctx|trans_text lang|keyword_input];
    simpl.
  - unfold sum_btn, get_summarizer. break_handler; try shown_by_loader Hok;
      simpl; intros H; try discriminate H; try reflexivity; assumption.
  - unfold qa_btn, get_qa. break_handler; try shown_by_loader Hok;
      simpl; intros H; try discriminate H; try reflexivity; assumption.
  - unfold quiz_btn. break_handler; simpl; intros H; try discriminate H;
      reflexivity.
  - unfold trans_btn, load_translator. break_handler;
      try shown_by_loader Hok;
      simpl; intros H; try discriminate H; try reflexivity; assumption.
  - unfold kw_btn, get_classifier. break_handler; try shown_by_loader Hok;
      simpl; intros H; try discriminate H; try reflexivity; assumption.
Qed.

(** C9. In a process whose cache holds what the loaders left there, a
    press that fails (a missing or too short input, a failed load, shown
    by the load or shown again from the cache, an exception from the
    tokenizer or from a pipeline, an unsupported language: an error is
    shown, or at least no result card is) leaves every entry of the session
    store as it was: only a press that shows its result writes to the
    store. *)
Theorem failure_keeps_session : forall (E : env) (r : request) (w : world),
  cache_ok w ->
  existsb is_error (fst (press E r w)) = true
  \/ existsb is_result (fst (press E r w)) = false ->
  session (snd (press E r w)) = session w.
Proof.
  intros E r w Hok Hfail.
  assert (Hno : existsb is_result (fst (press E r w)) = false)
    by (destruct Hfail as [He|Hn]; [now apply error_excludes_result|exact Hn]).
  clear Hfail. revert Hno.
  destruct r as [text|context question|quiz_ctx|trans_text lang|keyword_input];
    simpl.
  - unfold sum_btn, get_summarizer. break_handler; simpl; intros H;
      no_result H; try reflexivity; same_session E CallSummarizer w.
  - unfold qa_btn, get_qa. break_handler; simpl; intros H;
      try reflexivity; same_session E CallQA w.
  - unfold quiz_btn. break_handler; simpl; intros H; no_result H;
      reflexivity.
  - unfold trans_btn, load_translator. break_handler; simpl; intros H;
      no_result H; try reflexivity;
      match goal with
      | H : cache_resource E ?k w = _ |- _ => same_session E k w
      end.
  - unfold kw_btn, get_classifier. break_handler; simpl; intros H;
      no_result H; try reflexivity; same_session E CallClassifier w.
Qed.

Lemma failure_keeps_session_offline :
  session (snd (press offline (ReqSummarize words_25) stored_world))
  = session stored_world.
Proof.
  apply (failure_keeps_session offline (ReqSummarize words_25) stored_world).
  - intros k en H. discriminate H.
  - left. vm_compute. reflexivity.
Defined.

Lemma select_keywords_none ls ss :
  Forall (fun sc => Float64.valid sc = true
                    /\ Float64.above (3 # 10) sc = false) ss ->
  select_keywords ls ss = [].
Proof.
  intros Hss. unfold select_keywords. rewrite slice_to_5.
  replace (filter _ (combine ls ss)) with (@nil (str * Float64.float));
    [reflexivity|].
  symmetry. revert ls. induction Hss as [|sc ss [Hv Ha] _ IH]; intros ls.
  - now destruct ls.
  - destruct ls as [|l ls]; [reflexivity|]. simpl.
    rewrite (gt_lit_0_3 sc Hv), Ha. apply IH.
Qed.

(** C10. When "Generate Quiz" or "Extract Keywords" runs to the end with an
    empty list (no prompt could be built, or no label scored above 0.3),
    in a process whose cache holds what the loaders left there, the session
    store is not written: the list stored before, if any, stays and the
    Download tab offers the same files. *)
Theorem empty_result_keeps_store : forall (E : env) (w : world),
  (forall quiz_ctx sentences,
     blank quiz_ctx = false ->
     sent_tokenize E (fst (truncate_text quiz_ctx 200)) = inr sentences ->
     quiz_questions (slice_to 5 sentences) = [] ->
     snd (quiz_btn E quiz_ctx w) = w
     /\ existsb is_result (fst (quiz_btn E quiz_ctx w)) = false
     /\ download_tab (session (snd (quiz_btn E quiz_ctx w)))
        = download_tab (session w))
  /\ (forall keyword_input p ls ss,
        cache_ok w ->
        blank keyword_input = false ->
        fst (fst (get_classifier E w)) = Some p ->
        classifier_call E p (fst (truncate_text keyword_input 200)) labels
        = inr (ls, ss) ->
        select_keywords ls ss = [] ->
        session (snd (kw_btn E keyword_input w)) = session w
        /\ existsb is_result (fst (kw_btn E keyword_input w)) = false
        /\ In NoteNoKeywords (fst (kw_btn E keyword_input w))
        /\ download_tab (session (snd (kw_btn E keyword_input w)))
           = download_tab (session w))
  /\ (forall ls ss,
        Forall (fun sc => Float64.valid sc = true
                          /\ Float64.above (3 # 10) sc = false) ss ->
        select_keywords ls ss = []).
Proof.
  intros E w. split; [|split].
  - intros quiz_ctx sentences Hb Ht Hq.
    rewrite (quiz_btn_tokenized E quiz_ctx w sentences Hb Ht).
    rewrite slice_to_5 in Hq. cbv zeta. rewrite Hq. simpl truthy.
    destruct (length (firstn 5 sentences) =? 0); repeat split.
  - intros keyword_input p ls ss Hok Hb Hc Hr Hk.
    assert (Hs : session (snd (kw_btn E keyword_input w)) = session w
                 /\ existsb is_result (fst (kw_btn E keyword_input w)) = false
                 /\ In NoteNoKeywords (fst (kw_btn E keyword_input w))).
    { unfold kw_btn. rewrite truthy_strip, Hb. simpl negb. cbv iota.
      destruct (truncate_text keyword_input 200) as [trunc_kw flag].
      simpl in Hr. unfold get_classifier in *.
      pose proof (proj1 (cache_resource_session E CallClassifier w)) as Hw.
      destruct (cache_resource E CallClassifier w) as [[c shown] w1] eqn:Hcr.
      simpl in Hc, Hw. subst c. rewrite Hr, Hk. simpl.
      split; [exact Hw|]. split.
      - rewrite existsb_app. simpl. rewrite orb_false_r.
        exact (proj1 (cache_resource_shown _ _ _ _ _ _ Hok Hcr)).
      - apply in_or_app. right. now left. }
    destruct Hs as (Hs & Hr' & Hn). rewrite Hs. repeat split; assumption.
  - exact select_keywords_none.
Qed.

Lemma empty_result_keeps_store_short_sentence :
  snd (quiz_btn (canned_env None (inr [lit "Too short"]) (inr ([], [])))
         (lit "Too short") stored_world) = stored_world.
Proof.
  refine (proj1 (proj1 (empty_result_keeps_store
                          (canned_env None (inr [lit "Too short"])
                             (inr ([], [])))
                          stored_world)
                   (lit "Too short") [lit "Too short"] _ _ _));
    reflexivity.
Defined.

End Handlers.

(** ** Further properties of the Text Normalizer *)

Section NormalizerMore.

Lemma lstrip_head c s : is_space c = false -> lstrip (c :: s) = c :: s.
Proof. intros Hc. simpl. now rewrite Hc. Qed.

Lemma token_head t :
  is_token t = true -> exists c t', t = c :: t' /\ is_space c = false.
Proof.
  intros Ht. apply is_token_inv in Ht as [Hne Hf].
  destruct t as [|c t']; [contradiction|].
  simpl in Hf. apply andb_true_iff in Hf as [Hc _].
  exists c, t'. split; [reflexivity|]. now apply negb_true_iff.
Qed.

Lemma token_last t :
  is_token t = true -> exists t' c, t = t' ++ [c] /\ is_space c = false.
Proof.
  intros Ht. apply is_token_inv in Ht as [Hne Hf].
  destruct (exists_last Hne) as (t' & c & Heq). subst t.
  rewrite forallb_app in Hf. apply andb_true_iff in Hf as [_ Hc].
  simpl in Hc. rewrite andb_true_r in Hc.
  exists t', c. split; [reflexivity|]. now apply negb_true_iff.
Qed.

Lemma join_cons2 sep w w' ws :
  join sep (w :: w' :: ws) = w ++ sep ++ join sep (w' :: ws).
Proof. reflexivity. Qed.

Lemma lstrip_join ws :
  Forall (fun t => is_token t = true) ws ->
  lstrip (join [space] ws) = join [space] ws.
Proof.
  intros Hws. destruct Hws as [|w ws Hw Hws]; [reflexivity|].
  destruct (token_head w Hw) as (c & t' & -> & Hc).
  destruct ws as [|w' ws'].
  - now apply lstrip_head.
  - rewrite join_cons2. change ((c :: t') ++ ?x) with (c :: t' ++ x).
    now apply lstrip_head.
Qed.

Lemma join_last ws :
  Forall (fun t => is_token t = true) ws -> ws <> [] ->
  exists pre c, join [space] ws = pre ++ [c] /\ is_space c = false.
Proof.
  induction 1 as [|w ws Hw Hws IH]; intros Hne; [contradiction|].
  destruct ws as [|w' ws'].
  - destruct (token_last w Hw) as (t' & c & -> & Hc). now exists t', c.
  - destruct IH as (pre & c & Heq & Hc); [discriminate|].
    exists (w ++ [space] ++ pre), c. split; [|assumption].
    rewrite join_cons2, Heq. now rewrite <- !app_assoc.
Qed.

Lemma strip_join ws :
  Forall (fun t => is_token t = true) ws ->
  strip (join [space] ws) = join [space] ws.
Proof.
  intros Hws. unfold strip, rstrip. rewrite lstrip_join by assumption.
  destruct ws as [|w ws']; [reflexivity|].
  destruct (join_last (w :: ws') Hws) as (pre & c & Heq & Hc); [discriminate|].
  rewrite Heq, rev_app_distr. change (rev [c] ++ rev pre) with (c :: rev pre).
  rewrite lstrip_head by assumption.
  change (c :: rev pre) with ([c] ++ rev pre).
  now rewrite rev_app_distr, rev_involutive.
Qed.

Lemma join_only_spaces ws :
  Forall (fun t => is_token t = true) ws ->
  Forall (fun c => is_space c = true -> c = space) (join [space] ws).
Proof.
  assert (Htok : forall t, is_token t = true ->
            Forall (fun c => is_space c = true -> c = space) t).
  { intros t Ht. apply is_token_inv in Ht as [_ Hf].
    apply Forall_forall. intros c Hin Hc.
    rewrite forallb_forall in Hf. specialize (Hf c Hin).
    rewrite Hc in Hf. discriminate. }
  induction 1 as [|w ws Hw Hws IH]; [constructor|].
  destruct ws as [|w' ws']; [now apply Htok|].
  rewrite join_cons2. apply Forall_app. split; [now apply Htok|].
  apply Forall_app. split; [|assumption]. now repeat constructor.
Qed.

Lemma truncate_tokens text (n : nat) :
  Forall (fun t => is_token t = true) (firstn n (split text)).
Proof. apply Forall_firstn, split_all_tokens. Qed.

Lemma truncate_normal_form text (n : nat) :
  normal_form (fst (truncate_text text (Z.of_nat n))).
Proof.
  unfold normal_form. rewrite split_truncate_text.
  now rewrite truncate_text_nat.
Qed.

(** X1. Truncating a truncated text again, with the same limit, returns it
    unchanged with the flag [false]: the result is the single-space join of
    its own words. *)
Theorem truncate_text_idempotent : forall (text : str) (n : nat),
  let r := fst (truncate_text text (Z.of_nat n)) in
  truncate_text r (Z.of_nat n) = (r, false) /\ normal_form r.
Proof.
  intros text n r.
  assert (Hr : r = join [space] (firstn n (split text)))
    by (subst r; now rewrite truncate_text_nat).
  assert (Hs : split r = firstn n (split text))
    by (subst r; apply split_truncate_text).
  split.
  - rewrite truncate_text_nat, Hs, firstn_firstn, Nat.min_id, <- Hr.
    f_equal. apply Nat.ltb_ge. apply firstn_le_length.
  - apply truncate_normal_form.
Qed.

(** X2. The returned text is clean whatever whitespace the input has: it
    has no leading or trailing whitespace, its only whitespace code points
    are single U+0020 separators, and when the limit is not exceeded every
    word of the input is kept. *)
Theorem truncate_text_clean : forall (text : str) (n : nat),
  let r := fst (truncate_text text (Z.of_nat n)) in
  strip r = r
  /\ Forall (fun c => is_space c = true -> c = space) r
  /\ (word_count text <= n -> split r = split text).
Proof.
  intros text n r. subst r. rewrite truncate_text_nat. cbn [fst].
  split; [apply strip_join, truncate_tokens|].
  split; [apply join_only_spaces, truncate_tokens|].
  intros Hle. rewrite split_join by apply truncate_tokens.
  now apply firstn_all2.
Qed.

(** X3. The limits below one.  With limit 0 the text is dropped and the
    flag tells whether it had a word.  With a negative limit [-k] the slice
    [words[:-k]] drops the last [k] words and the flag is always [true],
    also for an empty text. *)
Theorem truncate_text_low_limits : forall (text : str) (k : nat),
  truncate_text text 0 = ([], negb (blank text))
  /\ truncate_text text (- Z.of_nat (S k))
     = (join [space] (firstn (word_count text - S k) (split text)), true).
Proof.
  intros text k. unfold truncate_text, word_count. split.
  - f_equal. destruct (blank text) eqn:Hb.
    + apply blank_split in Hb. now rewrite Hb.
    + destruct (split text) eqn:Hs; [|reflexivity].
      apply blank_split in Hs. congruence.
  - f_equal.
    + unfold slice_to.
      destruct (Z.leb_spec 0 (- Z.of_nat (S k))); [lia|].
      now rewrite Z.opp_involutive, Nat2Z.id.
    + apply Z.ltb_lt. lia.
Qed.

(** X21. For any limit [n], [get_first_words] returns a text of
    [min n (number of words)] words: the text itself, whitespace and all,
    when it has at most [n] words, and its first [n] words joined by single
    spaces otherwise; applying it again changes nothing. *)
Theorem get_first_words_count : forall (text : str) (n : nat),
  let f := get_first_words text (Z.of_nat n) in
  word_count f = Nat.min n (word_count text)
  /\ (word_count text <= n -> f = text)
  /\ (n < word_count text -> f = join [space] (firstn n (split text)))
  /\ get_first_words f (Z.of_nat n) = f.
Proof.
  intros text n f.
  assert (Hcases : (word_count text <= n /\ f = text)
                   \/ (n < word_count text
                       /\ f = join [space] (firstn n (split text)))).
  { subst f. unfold get_first_words, word_count. rewrite slice_to_nat.
    destruct (Z.leb_spec (Z.of_nat (length (split text))) (Z.of_nat n));
      [left|right]; split; try reflexivity; lia. }
  assert (Hwc : word_count f = Nat.min n (word_count text)).
  { destruct Hcases as [[Hle ->]|[Hlt ->]]; [lia|].
    rewrite word_count_join by apply truncate_tokens.
    rewrite length_firstn. reflexivity. }
  split; [exact Hwc|]. split; [|split].
  - intros Hle. destruct Hcases as [[_ H]|[Hlt _]]; [exact H|lia].
  - intros Hlt. destruct Hcases as [[Hle _]|[_ H]]; [lia|exact H].
  - unfold get_first_words. fold (word_count f).
    destruct (Z.leb_spec (Z.of_nat (word_count f)) (Z.of_nat n));
      [reflexivity|lia].
Qed.

End NormalizerMore.

(** ** Further properties of the handlers *)

Section HandlersMore.

Lemma loader_body_entry E k :
  loaded_entry k (Cached (fst (loader_body E k)) (snd (loader_body E k))).
Proof.
  unfold loader_body, loaded_entry, pipeline_of.
  destruct (try_load E (loader_task k) (loader_model k)) as [e|]; simpl;
    [right; now exists e|now left].
Qed.

Lemma cache_resource_effect E k w :
  let '(v, shown, w1) := cache_resource E k w in
  press_effect w w1
  /\ cache_lookup k (cache w1) = Some v
  /\ session w1 = session w /\ calls w1 = calls w
  /\ (cache_entry k (cache w) = None -> loaded_entry k (Cached v shown)).
Proof.
  unfold cache_resource, press_effect.
  destruct (cache_entry k (cache w)) as [en|] eqn:Hk.
  - repeat split; auto; [now apply cache_lookup_some|discriminate].
  - pose proof (loader_body_entry E k) as Hl.
    destruct (loader_body E k) as [v msgs]. simpl in Hl.
    unfold cache_lookup. cbn [cache calls session].
    rewrite cache_entry_cons, cached_call_eqb_refl.
    repeat split; auto. right. exists k, (Cached v msgs). auto.
Qed.

Lemma press_effect_frame w w1 w' :
  press_effect w w1 -> calls w1 = calls w ->
  cache w' = cache w1 -> loads w' = loads w1 ->
  (calls w' = calls w
   \/ exists k p, cache_lookup k (cache w') = Some (Some p)
        /\ calls w' = calls w ++ [p]) ->
  press_effect w w'.
Proof.
  intros [Hl _] _ Hc Hlo Hcalls. split; [|exact Hcalls].
  rewrite Hc, Hlo. exact Hl.
Qed.

Lemma press_effect_refl w : press_effect w w.
Proof. split; left; auto. Qed.

(** Everything a handler needs to know about its loader call, read off
    the equation [cache_resource E k w = (v, shown, w1)]. *)
Ltac loader_facts Feff Fcache Fsess Fcalls Fshown :=
  match goal with
  | H : cache_resource ?E ?k ?w = (?v, ?shown, ?w1) |- _ =>
      let F := fresh "F" in
      pose proof (cache_resource_effect E k w) as F;
      rewrite H in F;
      destruct F as (Feff & Fcache & Fsess & Fcalls & Fshown)
  end.

Ltac finish_effect :=
  first
    [ apply press_effect_refl
    | let Feff := fresh "Feff" in
      let Fcache := fresh "Fcache" in
      let Fsess := fresh "Fsess" in
      let Fcalls := fresh "Fcalls" in
      let Fshown := fresh "Fshown" in
      loader_facts Feff Fcache Fsess Fcalls Fshown;
      eapply press_effect_frame;
      [ exact Feff | exact Fcalls | reflexivity | reflexivity
      | simpl; first
          [ left; exact Fcalls
          | right; eexists _, _; split; [exact Fcache|];
            simpl; now rewrite Fcalls ] ] ].

Lemma press_has_effect E r w : press_effect w (snd (press E r w)).
Proof.
  destruct r as [text|context question|quiz_ctx|trans_text lang|keyword_input];
    simpl.
  - unfold sum_btn, get_summarizer. break_handler; simpl; finish_effect.
  - unfold qa_btn, get_qa. break_handler; simpl; finish_effect.
  - unfold quiz_btn. break_handler; simpl;
      first [apply press_effect_refl | split; left; auto].
  - unfold trans_btn, load_translator.
    destruct (negb (truthy (strip trans_text))); [apply press_effect_refl|].
    destruct (truncate_text trans_text 200) as [trunc_trans flag].
    destruct (dict_get model_map lang) as [e|model_name];
      [apply press_effect_refl|].
    break_handler; simpl; finish_effect.
  - unfold kw_btn, get_classifier. break_handler; simpl; finish_effect.
Qed.

Ltac session_facts :=
  try (let a := fresh in let b := fresh in let c := fresh "Fsess" in
       let d := fresh in let e := fresh in
       loader_facts a b c d e; simpl; rewrite ?c).

(** X4. A press writes at most the store entry of its own tab: Summarize
    leaves quiz, translation and keywords alone, and so on; the Q&A tab
    writes nothing, so an answer is never kept and has no download. *)
Theorem press_writes_own_entry : forall (E : env) (r : request) (w : world),
  let s := session w in
  let s' := session (snd (press E r w)) in
  match r with
  | ReqSummarize _ =>
      quiz s' = quiz s /\ translation s' = translation s
      /\ keywords s' = keywords s
  | ReqAnswer _ _ => s' = s
  | ReqQuiz _ =>
      summary s' = summary s /\ translation s' = translation s
      /\ keywords s' = keywords s
  | ReqTranslate _ _ =>
      summary s' = summary s /\ quiz s' = quiz s /\ keywords s' = keywords s
  | ReqKeywords _ =>
      summary s' = summary s /\ quiz s' = quiz s
      /\ translation s' = translation s
  end.
Proof.
  intros E r w.
  destruct r as [text|context question|quiz_ctx|trans_text lang|keyword_input];
    cbv zeta; simpl press.
  - unfold sum_btn, get_summarizer. break_handler; simpl; session_facts;
      repeat split; reflexivity.
  - unfold qa_btn, get_qa. break_handler; simpl; session_facts; reflexivity.
  - unfold quiz_btn. break_handler; simpl; repeat split; reflexivity.
  - unfold trans_btn, load_translator. break_handler; simpl; session_facts;
      repeat split; reflexivity.
  - unfold kw_btn, get_classifier. break_handler; simpl; session_facts;
      repeat split; reflexivity.
Qed.

(** X5. The Quiz tab uses no model: whatever the text and the outside
    world, a press of "Generate Quiz" loads nothing, calls no pipeline and
    leaves the model cache as it was. *)
Theorem quiz_btn_uses_no_model : forall (E : env) (quiz_ctx : str) (w : world),
  cache (snd (quiz_btn E quiz_ctx w)) = cache w
  /\ loads (snd (quiz_btn E quiz_ctx w)) = loads w
  /\ calls (snd (quiz_btn E quiz_ctx w)) = calls w.
Proof.
  intros E quiz_ctx w. unfold quiz_btn.
  break_handler; simpl; repeat split; reflexivity.
Qed.

(** X6. One press makes at most one load attempt, and only for a loader
    call that is not cached; it calls at most one pipeline, and only one
    the cache holds for a loader call after the press. *)
Theorem press_one_load_one_call : forall (E : env) (r : request) (w : world),
  let w' := snd (press E r w) in
  (loads w' = loads w
   \/ exists k, cache_lookup k (cache w) = None /\ loads w' = loads w ++ [k])
  /\ (calls w' = calls w
      \/ exists k p, cache_lookup k (cache w') = Some (Some p)
           /\ calls w' = calls w ++ [p]).
Proof.
  intros E r w w'. subst w'.
  destruct (press_has_effect E r w) as [Hl Hc]. split; [|exact Hc].
  destruct Hl as [[_ Hl]|(k & en & Hk & _ & _ & Hl)]; [now left|].
  right. exists k. split; [now apply cache_lookup_none|exact Hl].
Qed.

Lemma press_effect_cache_ok w w' :
  press_effect w w' -> cache_ok w -> cache_ok w'.
Proof.
  intros [[[Hca _]|(k0 & en0 & Hk & Hen & Hca & _)] _] Hok; unfold cache_ok;
    rewrite Hca; [exact Hok|].
  intros k en. rewrite cache_entry_cons.
  destruct (cached_call_eqb k k0) eqn:Heq; [|apply Hok].
  apply cached_call_eqb_eq in Heq. subst k0.
  intros H. now injection H as <-.
Qed.

Lemma step_cache_ok E a w : cache_ok w -> cache_ok (snd (step E a w)).
Proof.
  destruct a as [r|]; simpl.
  - apply press_effect_cache_ok, press_has_effect.
  - intros _ k en H. discriminate H.
Qed.

(** The cache of every process holds what the loaders left there. *)
Lemma run_cache_ok trace : forall w, cache_ok w -> cache_ok (run trace w).
Proof.
  induction trace as [|[E a] trace IH]; intros w Hw; simpl; [exact Hw|].
  apply IH. now apply step_cache_ok.
Qed.

Lemma init_cache_ok : cache_ok init_world.
Proof. intros k en H. discriminate H. Qed.

Lemma cache_ok_value w k p :
  cache_ok w -> cache_lookup k (cache w) = Some (Some p) -> p = pipeline_of k.
Proof.
  unfold cache_lookup. intros Hok H.
  destruct (cache_entry k (cache w)) as [en|] eqn:Hen; [|discriminate].
  destruct (Hok k en Hen) as [->|[e ->]]; simpl in H; congruence.
Qed.

Lemma press_effect_well_formed w w' :
  press_effect w w' -> well_formed w -> well_formed w'.
Proof.
  intros Heff (Hok & Hin & Hcalls).
  pose proof (press_effect_cache_ok w w' Heff Hok) as Hok'.
  destruct Heff as [Hl Hc].
  assert (Hin' : forall k, cache_lookup k (cache w') <> None -> In k (loads w')).
  { destruct Hl as [[Hca Hlo]|(k0 & en0 & Hk & Hen & Hca & Hlo)];
      rewrite Hca, Hlo; [exact Hin|].
    intros k. unfold cache_lookup. rewrite cache_entry_cons.
    destruct (cached_call_eqb k k0) eqn:Heq.
    - apply cached_call_eqb_eq in Heq. subst k0. intros _.
      apply in_or_app. right. now left.
    - intros H. apply in_or_app. left. now apply Hin. }
  assert (Hsub : forall k, In k (loads w) -> In k (loads w')).
  { destruct Hl as [[_ Hlo]|(k0 & en0 & _ & _ & _ & Hlo)]; rewrite Hlo;
      [auto|]. intros k H. apply in_or_app. now left. }
  repeat split; try assumption.
  intros p Hp. destruct Hc as [Hc|(k & q & Hk & Hc)]; rewrite Hc in Hp.
  - destruct (Hcalls p Hp) as (k & Hk & ->). exists k. auto.
  - apply in_app_or in Hp as [Hp|[<-|[]]].
    + destruct (Hcalls p Hp) as (k' & Hk' & ->). exists k'. auto.
    + exists k. split; [apply Hin'; congruence|].
      now apply (cache_ok_value w').
Qed.

Lemma step_well_formed E a w :
  well_formed w -> well_formed (snd (step E a w)).
Proof.
  destruct a as [r|]; simpl.
  - apply press_effect_well_formed, press_has_effect.
  - intros (_ & _ & Hcalls). split; [|split].
    + intros k en H. discriminate H.
    + intros k H. now contradiction H.
    + exact Hcalls.
Qed.

(** X7. In every process, however the buttons were pressed (the cache
    clearing button included): what the cache holds for a loader call is
    what its loader left there (the pipeline of that call's task and model
    with no message, or [None] with the load error), every cached call was
    attempted, and every pipeline ever called is one this process tried to
    load, with the task and model of its loader. *)
Theorem reachable_well_formed : forall trace : list (env * action),
  well_formed (run trace init_world).
Proof.
  assert (H : forall trace w, well_formed w -> well_formed (run trace w)).
  { induction trace as [|[E a] trace IH]; intros w Hw; simpl; [exact Hw|].
    apply IH. now apply step_well_formed. }
  intros trace. apply H. split; [exact init_cache_ok|].
  split; simpl; [intros k Hk; now contradiction Hk|contradiction].
Qed.

Lemma quiz_questions_ok sentences :
  length sentences <= 5 ->
  length (quiz_questions sentences) <= 5
  /\ Forall (fun q => exists sentence,
               q = quiz_prompt sentence /\ 10 < length sentence)
       (quiz_questions sentences).
Proof.
  intros Hlen. split.
  - etransitivity; [apply quiz_questions_length|exact Hlen].
  - unfold quiz_questions. apply Forall_forall. intros q Hq.
    apply in_map_iff in Hq as (sentence & <- & Hin).
    apply filter_In in Hin as [_ Hlong]. exists sentence.
    split; [reflexivity|now apply Nat.ltb_lt].
Qed.

Lemma select_keywords_length ls ss : length (select_keywords ls ss) <= 5.
Proof. unfold select_keywords. rewrite slice_to_5. apply firstn_le_length. Qed.

Lemma press_session_ok E r w :
  session_ok (session w) -> session_ok (session (snd (press E r w))).
Proof.
  intros Hok.
  assert (Hquiz : forall l, session_ok
            {| summary := summary (session w);
               quiz := quiz_questions (slice_to 5 l);
               translation := translation (session w);
               keywords := keywords (session w) |}).
  { intros l. destruct Hok as (_ & _ & Hk). unfold session_ok. simpl.
    destruct (quiz_questions_ok (slice_to 5 l)) as [Hlen Hall];
      [rewrite slice_to_5; apply firstn_le_length|].
    repeat split; assumption. }
  destruct r as [text|context question|quiz_ctx|trans_text lang|keyword_input];
    simpl press.
  - unfold sum_btn, get_summarizer. break_handler; simpl; session_facts;
      exact Hok.
  - unfold qa_btn, get_qa. break_handler; simpl; session_facts; exact Hok.
  - unfold quiz_btn. break_handler; simpl; first [exact Hok | apply Hquiz].
  - unfold trans_btn, load_translator. break_handler; simpl; session_facts;
      exact Hok.
  - unfold kw_btn, get_classifier. break_handler; simpl; session_facts;
      try exact Hok.
    destruct Hok as (Hq & Hp & _). unfold session_ok. simpl.
    repeat split; try assumption. apply select_keywords_length.
Qed.

(** X8. In every process the store holds at most 5 quiz questions, each of
    them the prompt of a sentence longer than 10 characters, and at most 5
    keywords: the quiz and keyword downloads never hold more. *)
Theorem reachable_session_ok : forall trace : list (env * action),
  session_ok (session (run trace init_world)).
Proof.
  assert (H : forall trace w,
            session_ok (session w) -> session_ok (session (run trace w))).
  { induction trace as [|[E a] trace IH]; intros w Hw; simpl; [exact Hw|].
    apply IH. destruct a as [r|]; simpl;
      [now apply press_session_ok|exact Hw]. }
  intros trace. apply H. unfold session_ok. simpl.
  split; [lia|]. split; [constructor|lia].
Qed.

(** X9. A model that loaded stays available: once a loader call has
    succeeded, every later call, after any presses and whatever the outside
    world has become, gets the same pipeline from the cache with no load
    and no message, as long as the cache is not cleared. *)
Theorem loaded_model_stays_available :
  forall (E : env) (k : cached_call) (w : world),
  cache_lookup k (cache w) = None ->
  try_load E (loader_task k) (loader_model k) = None ->
  let w1 := snd (cache_resource E k w) in
  fst (cache_resource E k w) = (Some (pipeline_of k), [])
  /\ forall trace E', Forall is_press trace ->
       cache_resource E' k (run trace w1)
       = (Some (pipeline_of k), [], run trace w1).
Proof.
  intros E k w Hk Hload w1. apply cache_lookup_none in Hk.
  assert (Hc : cache_entry k (cache w1)
               = Some (Cached (Some (pipeline_of k)) [])).
  { subst w1. unfold cache_resource, loader_body. rewrite Hk, Hload. simpl.
    now rewrite cached_call_eqb_refl. }
  split.
  - unfold cache_resource, loader_body. now rewrite Hk, Hload.
  - intros trace E' Hp. unfold cache_resource at 1.
    now rewrite (run_keeps trace w1 k _ Hp Hc).
Qed.

Lemma loaded_model_stays_available_offline :
  cache_resource offline CallSummarizer
    (run [(offline, Press (ReqQuiz words_25))]
       (snd (cache_resource online CallSummarizer init_world)))
  = (Some (pipeline_of CallSummarizer), [],
     run [(offline, Press (ReqQuiz words_25))]
       (snd (cache_resource online CallSummarizer init_world))).
Proof.
  refine (proj2 (loaded_model_stays_available online CallSummarizer
                   init_world _ _) [(offline, Press (ReqQuiz words_25))]
            offline _).
  - reflexivity.
  - reflexivity.
  - repeat constructor.
Defined.

Lemma truncate_text_400_words text :
  blank text = false ->
  let t := fst (truncate_text text 400) in
  normal_form t /\ 1 <= word_count t <= 400
  /\ word_count t = Nat.min 400 (word_count text).
Proof.
  intros Hb t. subst t. change 400%Z with (Z.of_nat 400).
  split; [apply truncate_normal_form|].
  unfold word_count. rewrite split_truncate_text, length_firstn.
  assert (split text <> []) by (intros H; apply blank_split in H; congruence).
  destruct (split text); [contradiction|]. simpl length. lia.
Qed.

Lemma truncate_text_200_words text :
  blank text = false ->
  let t := fst (truncate_text text 200) in
  normal_form t /\ 1 <= word_count t <= 200.
Proof.
  intros Hb t. subst t. change 200%Z with (Z.of_nat 200).
  split; [apply truncate_normal_form|].
  unfold word_count. rewrite split_truncate_text, length_firstn.
  assert (split text <> []) by (intros H; apply blank_split in H; congruence).
  destruct (split text); [contradiction|]. simpl length. lia.
Qed.

(** X10. Clearing the model cache and pressing "Generate Summary" again
    recovers from a failed load: whatever the cache held, if the model now
    loads and the summarizer answers [s] on the truncated text, [s] is
    shown and stored. *)
Theorem clear_then_summarize_recovers :
  forall (E : env) (text s : str) (w : world),
  20 <= word_count text ->
  try_load E Summarization (loader_model CallSummarizer) = None ->
  summarizer_call E (pipeline_of CallSummarizer)
    (fst (truncate_text text 400)) = inr s ->
  let w' := run [(E, ClearModelCache); (E, Press (ReqSummarize text))] w in
  summary (session w') = s
  /\ cache_lookup CallSummarizer (cache w')
     = Some (Some (pipeline_of CallSummarizer))
  /\ In (Result (SummaryCard s (word_count s)))
       (fst (press E (ReqSummarize text) (clear_cache w))).
Proof.
  intros E text s w Hlen Hload Hsum w'. subst w'.
  change (run [(E, ClearModelCache); (E, Press (ReqSummarize text))] w)
    with (snd (sum_btn E text (clear_cache w))).
  change (press E (ReqSummarize text) (clear_cache w))
    with (sum_btn E text (clear_cache w)).
  assert (Hb : blank text = false).
  { destruct (blank text) eqn:Hb; [|reflexivity].
    apply blank_split in Hb. unfold word_count in Hlen.
    rewrite Hb in Hlen. simpl in Hlen. lia. }
  destruct (truncate_text_400_words text Hb) as (_ & _ & Hwc).
  unfold sum_btn. rewrite truthy_strip, Hb. simpl negb. cbv iota.
  destruct (truncate_text text 400) as [trunc was_trunc] eqn:Ht.
  cbn [fst] in Hsum, Hwc. unfold word_count in Hwc at 1.
  destruct (Nat.ltb_spec (length (split trunc)) 20) as [Hlt|_]; [lia|].
  unfold get_summarizer, cache_resource, loader_body.
  cbn [cache_entry clear_cache cache].
  change (loader_task CallSummarizer) with Summarization.
  rewrite Hload.
  change (Pipeline Summarization (loader_model CallSummarizer))
    with (pipeline_of CallSummarizer).
  rewrite Hsum. simpl. repeat split.
  apply in_or_app. right. now left.
Qed.

Lemma clear_then_summarize_recovers_after_failure :
  summary
    (session
       (run [(online, ClearModelCache);
             (online, Press (ReqSummarize words_25))]
          (snd (press offline (ReqSummarize words_25) init_world))))
  = words_25.
Proof.
  refine (proj1 (clear_then_summarize_recovers online words_25 words_25
                   (snd (press offline (ReqSummarize words_25) init_world))
                   _ _ _)).
  - vm_compute. repeat constructor.
  - reflexivity.
  - reflexivity.
Defined.

Lemma cache_resource_agree E E' k w :
  agree E E' -> cache_resource E k w = cache_resource E' k w.
Proof.
  intros H. unfold cache_resource, loader_body.
  now rewrite (agree_load H).
Qed.

(** X11. The handlers stay within their word budgets.  Two outside worlds
    that agree on loads and on the inputs the budgets allow (the summarizer
    on single-spaced texts of 20 to 400 words, the question answerer on
    contexts of up to 400 words, the translator, the classifier with the
    ten fixed labels and the tokenizer on up to 200 words) give the same
    messages and the same process after any press: no pipeline is ever
    asked about any other input. *)
Theorem press_within_budget : forall (E E' : env) (r : request) (w : world),
  agree E E' -> press E r w = press E' r w.
Proof.
  intros E E' r w H.
  destruct r as [text|context question|quiz_ctx|trans_text lang|keyword_input];
    simpl.
  - unfold sum_btn, get_summarizer. rewrite truthy_strip.
    destruct (blank text) eqn:Hb; [reflexivity|]. simpl negb. cbv iota.
    destruct (truncate_text_400_words text Hb) as (Hn & [_ Hhi] & _).
    destruct (truncate_text text 400) as [trunc was_trunc].
    cbn [fst] in Hn, Hhi.
    destruct (Nat.ltb_spec (length (split trunc)) 20) as [|Hlo];
      [reflexivity|].
    rewrite (cache_resource_agree E E' CallSummarizer w H).
    destruct (cache_resource E' CallSummarizer w) as [[[p|] shown] w1];
      [|reflexivity].
    now rewrite (agree_summarizer H p Hn (conj Hlo Hhi)).
  - unfold qa_btn, get_qa. rewrite !truthy_strip.
    destruct (blank context) eqn:Hb; [reflexivity|].
    destruct (blank question) eqn:Hq; [reflexivity|]. cbn [negb orb].
    destruct (truncate_text_400_words context Hb) as (Hn & Hwc & _).
    destruct (truncate_text context 400) as [trunc_ctx flag].
    cbn [fst] in Hn, Hwc.
    rewrite (cache_resource_agree E E' CallQA w H).
    destruct (cache_resource E' CallQA w) as [[[p|] shown] w1];
      [|reflexivity].
    now rewrite (agree_qa H p question Hn Hwc Hq).
  - unfold quiz_btn. rewrite truthy_strip.
    destruct (blank quiz_ctx) eqn:Hb; [reflexivity|]. simpl negb. cbv iota.
    destruct (truncate_text_200_words quiz_ctx Hb) as (Hn & Hwc).
    destruct (truncate_text quiz_ctx 200) as [trunc_quiz flag].
    cbn [fst] in Hn, Hwc.
    now rewrite (agree_tokenizer H Hn Hwc).
  - unfold trans_btn, load_translator. rewrite truthy_strip.
    destruct (blank trans_text) eqn:Hb; [reflexivity|]. simpl negb. cbv iota.
    destruct (truncate_text_200_words trans_text Hb) as (Hn & Hwc).
    destruct (truncate_text trans_text 200) as [trunc_trans flag].
    cbn [fst] in Hn, Hwc.
    destruct (dict_get model_map lang) as [e|model_name]; [reflexivity|].
    rewrite (cache_resource_agree E E' (CallTranslator model_name) w H).
    destruct (cache_resource E' (CallTranslator model_name) w)
      as [[[p|] shown] w1]; [|reflexivity].
    now rewrite (agree_translator H p Hn Hwc).
  - unfold kw_btn, get_classifier. rewrite truthy_strip.
    destruct (blank keyword_input) eqn:Hb; [reflexivity|]. simpl negb.
    cbv iota.
    destruct (truncate_text_200_words keyword_input Hb) as (Hn & Hwc).
    destruct (truncate_text keyword_input 200) as [trunc_kw flag].
    cbn [fst] in Hn, Hwc.
    rewrite (cache_resource_agree E E' CallClassifier w H).
    destruct (cache_resource E' CallClassifier w) as [[[p|] shown] w1];
      [|reflexivity].
    now rewrite (agree_classifier H p Hn Hwc).
Qed.

(** X12. A press whose text is missing (empty or whitespace only; for Q&A
    the context or the question) shows the tab's missing-text error and
    nothing else, and leaves the whole process as it was: no load, no call,
    no write to the store. *)
Theorem press_blank_input : forall (E : env) (r : request) (w : world),
  request_blank r = true ->
  press E r w = ([ErrProvideText (request_capability r)], w).
Proof.
  intros E r w Hb.
  destruct r as [text|context question|quiz_ctx|trans_text lang|keyword_input];
    simpl in *.
  - unfold sum_btn. now rewrite truthy_strip, Hb.
  - unfold qa_btn. rewrite !truthy_strip, !negb_involutive. now rewrite Hb.
  - unfold quiz_btn. now rewrite truthy_strip, Hb.
  - unfold trans_btn. now rewrite truthy_strip, Hb.
  - unfold kw_btn. now rewrite truthy_strip, Hb.
Qed.

Lemma press_blank_input_question :
  press online (ReqAnswer words_25 (lit "  ")) init_world
  = ([ErrProvideText Answer], init_world).
Proof.
  apply (press_blank_input online (ReqAnswer words_25 (lit "  ")) init_world).
  reflexivity.
Defined.

Lemma press_within_budget_picky :
  press online (ReqSummarize words_25) init_world
  = press picky_env (ReqSummarize words_25) init_world.
Proof.
  apply (press_within_budget online picky_env (ReqSummarize words_25)
           init_world).
  constructor; try reflexivity.
  intros p t _ [Hlo _]. simpl.
  destruct (Nat.ltb_spec (word_count t) 20); [lia|reflexivity].
Defined.

Lemma cache_resource_messages E k w v shown w1 :
  cache_ok w -> cache_resource E k w = (v, shown, w1) ->
  Forall (fun m => exists e, m = ErrLoadFailed k e) shown.
Proof.
  intros Hok H.
  destruct (cache_resource_loaded E k w v shown w1 Hok H) as [Hl|[e Hl]];
    inversion Hl; subst; repeat constructor. now exists e.
Qed.

(** X13. In a process whose cache holds what the loaders left there, on a
    text with a word in it, "Generate Summary" shows the note
    "Text optimized to 400 words" exactly when the text has more than 400
    words, whatever happens afterwards; and the 20-word error is shown only
    for a text of fewer than 20 words, so the two never come together. *)
Theorem summarize_note_iff_truncated :
  forall (E : env) (text : str) (w : world),
  cache_ok w ->
  blank text = false ->
  (In NoteOptimized (fst (sum_btn E text w)) <-> 400 < word_count text)
  /\ (In ErrNeed20Words (fst (sum_btn E text w)) -> word_count text < 20).
Proof.
  intros E text w Hok Hb. split; [|
    intros Hin; destruct (Nat.lt_ge_cases (word_count text) 20) as [|Hge];
    [assumption|exfalso]].
  2:{ revert Hin. unfold sum_btn, get_summarizer.
      rewrite truthy_strip, Hb. simpl negb. cbv iota.
      rewrite truncate_text_400.
      rewrite split_join by apply Forall_firstn, split_all_tokens.
      unfold word_count in Hge.
      destruct (Nat.ltb_spec (length (firstn 400 (split text))) 20) as [Hlt|_];
        [rewrite length_firstn in Hlt; lia|].
      destruct (cache_resource E CallSummarizer w) as [[v shown] w1] eqn:Hc.
      pose proof (cache_resource_messages E CallSummarizer w v shown w1
                    Hok Hc) as Hm.
      rewrite Forall_forall in Hm.
      assert (Hs : ~ In ErrNeed20Words shown).
      { intros Hs. destruct (Hm _ Hs) as [e He]. discriminate He. }
      break_handler; simpl; rewrite ?in_app_iff; simpl;
        intros Hin; intuition discriminate. }
  unfold sum_btn, get_summarizer.
  rewrite truthy_strip, Hb. simpl negb. cbv iota.
  rewrite truncate_text_400. unfold word_count.
  destruct (Nat.ltb_spec 400 (length (split text))) as [Hgt|Hle].
  - split; [intros _; exact Hgt|intros _].
    break_handler; simpl; now left.
  - split; [|lia]. intros Hin. exfalso.
    destruct (length (split (join [space] (firstn 400 (split text)))) <? 20).
    + simpl in Hin. destruct Hin as [Hin|[]]. discriminate Hin.
    + destruct (cache_resource E CallSummarizer w) as [[v shown] w1] eqn:Hc.
      pose proof (cache_resource_messages E CallSummarizer w v shown w1
                    Hok Hc) as Hm.
      rewrite Forall_forall in Hm.
      assert (Hs : ~ In NoteOptimized shown).
      { intros Hs. destruct (Hm _ Hs) as [e He]. discriminate He. }
      revert Hin. break_handler; simpl; rewrite ?in_app_iff; simpl;
        intros Hin; intuition discriminate.
Qed.

Lemma summarize_note_iff_truncated_short :
  In NoteOptimized (fst (sum_btn online words_25 init_world))
  <-> 400 < word_count words_25.
Proof.
  refine (proj1 (summarize_note_iff_truncated online words_25 init_world
                   _ _)).
  - intros k en H. discriminate H.
  - reflexivity.
Defined.

Lemma no_result_in l c : existsb is_result l = false -> ~ In (Result c) l.
Proof.
  intros H Hin.
  assert (Ht : existsb is_result l = true)
    by (apply existsb_exists; exists (Result c); auto).
  congruence.
Qed.

Ltac shown_has_no_result Hok :=
  match goal with
  | H : cache_resource ?E ?k ?w = (_, ?shown, _) |- _ =>
      let F := fresh "Fno" in
      pose proof (proj1 (cache_resource_shown E k w _ _ _ Hok H)) as F
  end.

Ltac use_truthy :=
  repeat match goal with
    | Ht : truthy ?x = _ |- context [truthy ?x] => rewrite Ht
    end.

Ltac pick_result H :=
  simpl in H; rewrite ?in_app_iff in H; simpl in H;
  repeat match type of H with
    | _ \/ _ => destruct H as [H|H]
    | False => contradiction
    | In (Result _) _ => exfalso; eapply no_result_in; eassumption
    end;
  try discriminate H; try (injection H; clear H; intros; subst).

(** X14. What the Download tab offers after a press that showed a result
    card, in a process whose cache holds what the loaders left there.  A quiz or keywords card is stored and always comes with its
    file; a summary or translation card is stored too, but its file is
    offered only when the text is not empty; an answer card changes nothing
    in the tab.  The word count on the summary card is that of the
    summary. *)
Theorem result_card_and_download :
  forall (E : env) (r : request) (w : world) (c : card),
  cache_ok w ->
  In (Result c) (fst (press E r w)) ->
  let s' := session (snd (press E r w)) in
  match c with
  | SummaryCard s n =>
      n = word_count s /\ summary s' = s
      /\ summary_txt (download_tab s')
         = if truthy s then Some (encode s) else None
  | AnswerCard _ _ => download_tab s' = download_tab (session w)
  | QuizCard qs =>
      qs <> [] /\ quiz s' = qs
      /\ quiz_txt (download_tab s') = Some (encode (quiz_text qs))
  | TranslationCard _ t =>
      translation s' = t
      /\ translation_txt (download_tab s')
         = if truthy t then Some (encode t) else None
  | KeywordsCard kws =>
      kws <> [] /\ keywords s' = kws
      /\ keywords_txt (download_tab s') = Some (encode (keywords_text kws))
  end.
Proof.
  intros E r w c Hok.
  destruct r as [text|context question|quiz_ctx|trans_text lang|keyword_input];
    cbv zeta; simpl press.
  - unfold sum_btn, get_summarizer. break_handler; try shown_has_no_result Hok;
      intros H; pick_result H; simpl; use_truthy; repeat split;
      reflexivity || discriminate || congruence.
  - unfold qa_btn, get_qa. break_handler; try shown_has_no_result Hok;
      intros H; pick_result H; simpl; session_facts; reflexivity.
  - unfold quiz_btn. break_handler; intros H; pick_result H; simpl;
      use_truthy; repeat split; try reflexivity;
      intros Hnil; rewrite Hnil in *; discriminate.
  - unfold trans_btn, load_translator. break_handler;
      try shown_has_no_result Hok; intros H; pick_result H; simpl; use_truthy;
      repeat split; reflexivity || discriminate || congruence.
  - unfold kw_btn, get_classifier. break_handler; try shown_has_no_result Hok;
      intros H; pick_result H; simpl;
      use_truthy; repeat split; try reflexivity;
      intros Hnil; rewrite Hnil in *; discriminate.
Qed.

Lemma result_card_and_download_seven :
  quiz_txt
    (download_tab
       (session
          (snd (press seven_env (ReqQuiz (join [space] seven_sentences))
                  init_world))))
  = Some (encode (quiz_text (map quiz_prompt (firstn 5 seven_sentences)))).
Proof.
  refine (proj2 (proj2 (result_card_and_download seven_env
            (ReqQuiz (join [space] seven_sentences)) init_world
            (QuizCard (map quiz_prompt (firstn 5 seven_sentences))) _ _))).
  - intros k en H. discriminate H.
  - left. reflexivity.
Defined.

End HandlersMore.

(** ** The language table and the classifier's answer *)

Section Tables.

Lemma dict_get_In d key v :
  NoDup (map fst d) -> (dict_get d key = inr v <-> In (key, v) d).
Proof.
  induction d as [|[k0 v0] d IH]; simpl; intros Hnd.
  - split; [discriminate|contradiction].
  - inversion Hnd as [|x l Hnotin Hnd']; subst.
    destruct (str_eqb key k0) eqn:Heq.
    + apply str_eqb_eq in Heq. subst k0. split.
      * intros H. injection H as ->. now left.
      * intros [H|H]; [congruence|].
        exfalso. apply Hnotin. apply in_map_iff. now exists (key, v).
    + rewrite (IH Hnd'). split; [now right|].
      intros [H|H]; [|exact H].
      injection H as -> ->.
      assert (str_eqb key key = true) by now apply str_eqb_eq.
      congruence.
Qed.

Lemma dict_get_key d key v : dict_get d key = inr v -> In key (map fst d).
Proof.
  induction d as [|[k0 v0] d IH]; simpl; [discriminate|].
  destruct (str_eqb key k0) eqn:Heq; [|auto].
  apply str_eqb_eq in Heq. auto.
Qed.

Ltac distinct_literals :=
  repeat (constructor;
          [simpl; intros H;
           repeat (destruct H as [H|H]; [discriminate H|]); exact H|]);
  constructor.

Lemma model_map_keys : NoDup (map fst model_map).
Proof. distinct_literals. Qed.

Lemma model_map_models : NoDup (map snd model_map).
Proof. distinct_literals. Qed.

Lemma NoDup_snd_inj {A B} (d : list (A * B)) k k' v :
  NoDup (map snd d) -> In (k, v) d -> In (k', v) d -> k = k'.
Proof.
  induction d as [|[k0 v0] d IH]; simpl; [contradiction|].
  intros Hnd H H'. inversion Hnd as [|x l Hnotin Hnd']; subst.
  destruct H as [H|H], H' as [H'|H']; try congruence.
  - injection H as -> ->. exfalso. apply Hnotin.
    apply in_map_iff. now exists (k', v).
  - injection H' as -> ->. exfalso. apply Hnotin.
    apply in_map_iff. now exists (k, v).
  - now apply IH.
Qed.

(** X15. The language table: a lookup succeeds exactly for French, German,
    Spanish, Italian and Hindi and gives the model listed for the language;
    no two languages share a model, so each language has a cache entry of
    its own and a failed load for one does not affect another. *)
Theorem model_map_lookup : forall lang m : str,
  (dict_get model_map lang = inr m <-> In (lang, m) model_map)
  /\ ((exists m', dict_get model_map lang = inr m')
      <-> In lang
            (map lit ["French"; "German"; "Spanish"; "Italian"; "Hindi"]%string))
  /\ (forall lang', dict_get model_map lang = inr m ->
        dict_get model_map lang' = inr m -> lang = lang').
Proof.
  intros lang m. split; [apply dict_get_In, model_map_keys|]. split.
  - split.
    + intros [m' H]. exact (dict_get_key model_map lang m' H).
    + intros H. destruct (dict_get model_map lang) as [e|m'] eqn:Hd;
        [|now exists m'].
      exfalso. revert Hd. change (In lang (map fst model_map)) in H.
      apply in_map_iff in H as ([k v] & Hk & Hin). simpl in Hk. subst k.
      apply (dict_get_In model_map lang v model_map_keys) in Hin.
      congruence.
  - intros lang' H H'.
    apply (dict_get_In model_map lang m model_map_keys) in H.
    apply (dict_get_In model_map lang' m model_map_keys) in H'.
    exact (NoDup_snd_inj model_map lang lang' m model_map_models H H').
Qed.

(** X16. The keyword selector pairs labels and scores by position and
    stops at the shorter list: labels without a score and scores without a
    label are ignored. *)
Theorem select_keywords_zip :
  forall (ls : list str) (ss : list Float64.float),
  select_keywords ls ss
  = select_keywords (firstn (length ss) ls) (firstn (length ls) ss).
Proof.
  intros ls ss. unfold select_keywords. do 3 f_equal.
  revert ss. induction ls as [|l ls IH]; intros [|sc ss]; simpl;
    try reflexivity.
  f_equal. apply IH.
Qed.

End Tables.

(** ** Session state across reruns *)

Section SessionInit.

Lemma dict_find_app d k v key :
  dict_find (d ++ [(k, v)]) key
  = match dict_find d key with
    | Some x => Some x
    | None => if str_eqb key k then Some v else None
    end.
Proof.
  induction d as [|[k0 v0] d IH]; simpl; [reflexivity|].
  destruct (str_eqb key k0); [reflexivity|exact IH].
Qed.

Lemma init_state_key_find d k key :
  dict_find (init_state_key d k) key
  = match dict_find d key with
    | Some x => Some x
    | None => if str_eqb key k then Some (default_value k) else None
    end.
Proof.
  unfold init_state_key. destruct (dict_find d k) as [x|] eqn:Hk.
  - destruct (dict_find d key) eqn:Hkey; [reflexivity|].
    destruct (str_eqb key k) eqn:Heq; [|reflexivity].
    apply str_eqb_eq in Heq. congruence.
  - apply dict_find_app.
Qed.

Lemma init_state_key_present d k :
  dict_find d k <> None -> init_state_key d k = d.
Proof.
  unfold init_state_key. destruct (dict_find d k); [reflexivity|congruence].
Qed.

Lemma init_state_key_keeps d k key v :
  dict_find d key = Some v -> dict_find (init_state_key d k) key = Some v.
Proof. intros H. now rewrite init_state_key_find, H. Qed.

Lemma init_state_key_adds d k :
  dict_find (init_state_key d k) k <> None.
Proof.
  rewrite init_state_key_find. destruct (dict_find d k); [discriminate|].
  assert (H : str_eqb k k = true) by now apply str_eqb_eq.
  rewrite H. discriminate.
Qed.

Lemma init_state_keeps d key v :
  dict_find d key = Some v -> dict_find (init_state d) key = Some v.
Proof.
  intros H. unfold init_state, session_keys. simpl fold_left.
  now repeat apply init_state_key_keeps.
Qed.

Lemma not_none_keeps d k key :
  dict_find d key <> None -> dict_find (init_state_key d k) key <> None.
Proof.
  destruct (dict_find d key) as [v|] eqn:H; [|congruence].
  intros _. now rewrite (init_state_key_keeps d k key v H).
Qed.

Lemma init_state_present d key :
  In key session_keys -> dict_find (init_state d) key <> None.
Proof.
  unfold init_state, session_keys. simpl fold_left. simpl In.
  intros [<-|[<-|[<-|[<-|[]]]]];
    repeat first [apply init_state_key_adds | apply not_none_keeps].
Qed.

(** X17. The loop that prepares [st.session_state] on every run of the
    script only fills in what is missing: entries already there keep their
    values (results survive reruns), the four keys are present afterwards,
    a missing key gets the empty list for quiz and keywords and the empty
    string otherwise, and running the loop again changes nothing. *)
Theorem init_state_spec : forall d : state_dict,
  (forall key v, dict_find d key = Some v ->
     dict_find (init_state d) key = Some v)
  /\ (forall key, In key session_keys ->
        dict_find (init_state d) key
        = match dict_find d key with
          | Some v => Some v
          | None => Some (default_value key)
          end)
  /\ init_state (init_state d) = init_state d
  /\ init_state []
     = [(lit "summary", VStr []); (lit "quiz", VList []);
        (lit "translation", VStr []); (lit "keywords", VList [])].
Proof.
  intros d. split; [apply init_state_keeps|]. split; [|split].
  - intros key Hin. destruct (dict_find d key) as [v|] eqn:Hd;
      [now apply init_state_keeps|].
    revert Hin. unfold init_state, session_keys. simpl fold_left. simpl In.
    intros [<-|[<-|[<-|[<-|[]]]]]; rewrite !init_state_key_find, Hd;
      reflexivity.
  - assert (Hfix : forall key, In key session_keys ->
              init_state_key (init_state d) key = init_state d)
      by (intros key Hin; now apply init_state_key_present, init_state_present).
    unfold init_state at 1. unfold session_keys in *. simpl fold_left.
    rewrite !Hfix by (simpl; tauto). reflexivity.
  - reflexivity.
Qed.

End SessionInit.

(** ** The bytes of a download *)

Section DownloadBytes.

Ltac Zify.zify_post_hook ::= Z.to_euclidean_division_equations.

Local Open Scope N_scope.

Lemma scalar_bound c : scalar c = true -> c < 1114112.
Proof.
  unfold scalar. intros H. apply orb_true_iff in H as [H|H].
  - apply N.ltb_lt in H. lia.
  - apply andb_true_iff in H as [_ H]. now apply N.ltb_lt.
Qed.

Lemma utf8_decode_char c rest :
  c < 1114112 -> utf8_decode (utf8_char c ++ rest) = c :: utf8_decode rest.
Proof.
  intros Hc. unfold utf8_char.
  destruct (N.ltb_spec c 128) as [H1|H1].
  { simpl. destruct (N.ltb_spec c 128); [reflexivity|lia]. }
  destruct (N.ltb_spec c 2048) as [H2|H2].
  { cbn [app utf8_decode].
    destruct (N.ltb_spec (192 + c / 64) 128); [lia|].
    destruct (N.ltb_spec (192 + c / 64) 224); [|lia].
    f_equal. lia. }
  destruct (N.ltb_spec c 65536) as [H3|H3].
  { cbn [app utf8_decode].
    destruct (N.ltb_spec (224 + c / 4096) 128); [lia|].
    destruct (N.ltb_spec (224 + c / 4096) 224); [lia|].
    destruct (N.ltb_spec (224 + c / 4096) 240); [|lia].
    f_equal. lia. }
  cbn [app utf8_decode].
  destruct (N.ltb_spec (240 + c / 262144) 128); [lia|].
  destruct (N.ltb_spec (240 + c / 262144) 224); [lia|].
  destruct (N.ltb_spec (240 + c / 262144) 240); [lia|].
  f_equal. lia.
Qed.

Lemma utf8_char_bytes c :
  c < 1114112 ->
  Forall (fun b => b < 256) (utf8_char c)
  /\ (1 <= length (utf8_char c) <= 4)%nat.
Proof.
  intros Hc. unfold utf8_char.
  destruct (N.ltb_spec c 128); [|destruct (N.ltb_spec c 2048);
    [|destruct (N.ltb_spec c 65536)]];
    (split; [repeat constructor; lia|simpl; lia]).
Qed.

Lemma encode_decodes text :
  forallb scalar text = true ->
  utf8_decode (encode text) = text /\ Forall (fun b => b < 256) (encode text).
Proof.
  unfold encode. induction text as [|c text IH]; simpl; intros Hs.
  - split; auto.
  - apply andb_true_iff in Hs as [Hc Hs]. apply scalar_bound in Hc.
    destruct (IH Hs) as (Hd & Hb).
    rewrite utf8_decode_char by assumption. rewrite Hd.
    split; [reflexivity|]. apply Forall_app. split; [|assumption].
    now apply utf8_char_bytes.
Qed.

(** X18. [text.encode()] loses nothing: on a text of code points that
    UTF-8 can carry, the bytes decode back to the text, so two different
    texts never give the same file; every byte is below 256 and a code
    point takes one to four bytes. *)
Theorem encode_round_trip : forall text : str,
  forallb scalar text = true ->
  utf8_decode (encode text) = text
  /\ Forall (fun b => b < 256) (encode text)
  /\ (length text <= length (encode text) <= 4 * length text)%nat
  /\ (forall text', forallb scalar text' = true ->
        encode text = encode text' -> text = text').
Proof.
  intros text Hs. destruct (encode_decodes text Hs) as [Hd Hb].
  split; [exact Hd|]. split; [exact Hb|]. split.
  - clear Hd Hb. unfold encode.
    induction text as [|c text IH]; simpl; [lia|].
    simpl in Hs. apply andb_true_iff in Hs as [Hc Hs].
    apply scalar_bound in Hc.
    destruct (utf8_char_bytes c Hc) as [_ Hcl]. specialize (IH Hs).
    rewrite length_app. lia.
  - intros text' Hs' Heq. destruct (encode_decodes text' Hs') as [Hd' _].
    congruence.
Qed.

Lemma encode_round_trip_keywords :
  utf8_decode (encode (keywords_text [lit "science"; lit "education"]))
  = keywords_text [lit "science"; lit "education"].
Proof.
  refine (proj1 (encode_round_trip
                   (keywords_text [lit "science"; lit "education"]) _)).
  reflexivity.
Defined.

Lemma b64_index_char i :
  i < 64 -> b64_index (b64_char i) = i /\ (b64_char i =? 61) = false.
Proof.
  intros Hi. unfold b64_char, b64_index.
  destruct (N.ltb_spec i 26).
  { replace ((65 <=? 65 + i) && (65 + i <=? 90))%bool with true
      by (symmetry; apply andb_true_iff; split; apply N.leb_le; lia).
    split; [lia|apply N.eqb_neq; lia]. }
  destruct (N.ltb_spec i 52).
  { replace ((65 <=? 71 + i) && (71 + i <=? 90))%bool with false
      by (symmetry; apply andb_false_iff; right; apply N.leb_gt; lia).
    replace ((97 <=? 71 + i) && (71 + i <=? 122))%bool with true
      by (symmetry; apply andb_true_iff; split; apply N.leb_le; lia).
    split; [lia|apply N.eqb_neq; lia]. }
  destruct (N.ltb_spec i 62).
  { replace ((65 <=? i - 4) && (i - 4 <=? 90))%bool with false
      by (symmetry; apply andb_false_iff; left; apply N.leb_gt; lia).
    replace ((97 <=? i - 4) && (i - 4 <=? 122))%bool with false
      by (symmetry; apply andb_false_iff; left; apply N.leb_gt; lia).
    replace ((48 <=? i - 4) && (i - 4 <=? 57))%bool with true
      by (symmetry; apply andb_true_iff; split; apply N.leb_le; lia).
    split; [lia|apply N.eqb_neq; lia]. }
  destruct (N.eqb_spec i 62) as [->|Hne]; [split; reflexivity|].
  assert (i = 63) by lia. subst i. split; reflexivity.
Qed.

Lemma list_ind3 {A} (P : list A -> Prop) :
  P [] -> (forall a, P [a]) -> (forall a b, P [a; b]) ->
  (forall a b c l, P l -> P (a :: b :: c :: l)) ->
  forall l, P l.
Proof.
  intros H0 H1 H2 H3.
  assert (H : forall l, P l /\ (forall a, P (a :: l))
                        /\ (forall a b, P (a :: b :: l))).
  { induction l as [|x l (IHa & IHb & IHc)]; [auto|].
    split; [apply IHb|]. split; [intros a; apply IHc|].
    intros a b. now apply H3. }
  intros l. apply H.
Qed.

Ltac b64_indices :=
  repeat match goal with
    | |- context [b64_index (b64_char ?i)] =>
        let Hi := fresh "Hi" in
        assert (Hi : i < 64) by lia;
        rewrite (proj1 (b64_index_char i Hi))
    | |- context [b64_char ?i =? 61] =>
        let Hi := fresh "Hi" in
        assert (Hi : i < 64) by lia;
        rewrite (proj2 (b64_index_char i Hi))
    end.

Lemma b64_round_trip bs :
  Forall (fun b => b < 256) bs -> b64decode (b64encode bs) = bs.
Proof.
  induction bs as [|a|a b|a b c rest IH] using list_ind3; intros Hb.
  - reflexivity.
  - inversion Hb as [|x l Ha _]; subst.
    cbn [b64encode b64decode]. b64_indices.
    change (61 =? 61) with true. cbv iota. f_equal. lia.
  - inversion Hb as [|x l Ha Hb']; subst.
    inversion Hb' as [|x l Hb0 _]; subst.
    cbn [b64encode b64decode]. b64_indices.
    change (61 =? 61) with true. cbv iota. repeat (f_equal; try lia).
  - inversion Hb as [|x l Ha Hb']; subst.
    inversion Hb' as [|x l Hb0 Hb'']; subst.
    inversion Hb'' as [|x l Hc Hrest]; subst.
    cbn [b64encode b64decode app]. b64_indices. cbv iota.
    rewrite (IH Hrest). cbn [app]. repeat (f_equal; try lia).
Qed.

Lemma b64_length (bs : list N) :
  length (b64encode bs) = (4 * ((length bs + 2) / 3))%nat.
Proof.
  induction bs as [|a|a b|a b c rest IH] using list_ind3; try reflexivity.
  cbn [b64encode app length]. rewrite IH.
  replace (S (S (S (length rest))) + 2)%nat
    with (length rest + 2 + 1 * 3)%nat by lia.
  rewrite Nat.div_add by lia. lia.
Qed.

(** X19. The payload of a download link determines the text: decoding the
    base64 characters and then the UTF-8 bytes gives the text back, and the
    payload has four characters for every three bytes, the last group
    padded. *)
Theorem download_payload_round_trip : forall text : str,
  forallb scalar text = true ->
  b64decode (download_payload text) = encode text
  /\ utf8_decode (b64decode (download_payload text)) = text
  /\ length (download_payload text)
     = (4 * ((length (encode text) + 2) / 3))%nat.
Proof.
  intros text Hs. unfold download_payload.
  destruct (encode_decodes text Hs) as (Hd & Hb).
  rewrite (b64_round_trip (encode text) Hb).
  split; [reflexivity|]. split; [exact Hd|apply b64_length].
Qed.

Lemma download_payload_round_trip_keywords :
  b64decode (download_payload (keywords_text [lit "science"; lit "education"]))
  = encode (keywords_text [lit "science"; lit "education"]).
Proof.
  refine (proj1 (download_payload_round_trip
                   (keywords_text [lit "science"; lit "education"]) _)).
  reflexivity.
Defined.

(** X20. The closing message of the Download tab matches its links: the
    success note is shown exactly when at least one file is offered, and in
    a fresh session none is. *)
Theorem downloads_ready_iff_offered : forall s : session_state,
  (downloads_ready s = false
   <-> download_tab s
       = {| summary_txt := None; quiz_txt := None; translation_txt := None;
            keywords_txt := None |})
  /\ downloads_ready init_session = false.
Proof.
  intros [sm qz tr kw]. unfold downloads_ready, download_tab. simpl.
  split; [|reflexivity].
  destruct sm, qz, tr, kw; simpl; split; intros H; try reflexivity;
    discriminate H.
Qed.

End DownloadBytes.
